(** * The client-side coordination layer of the portfolio site

    A shallow embedding of the state store (StateManager), the theme and
    translation managers (ThemeManager, I18nManager) and the pure feed
    transformations of BlogManager, followed by the properties the
    specification states about them.

    Conventions.
    - Property names, state keys, theme and language codes are ASCII
      identifiers and are modelled as [string].
    - JavaScript values that flow through the store are [JsValue].
    - The store, the subscriber registry and [localStorage] are finite maps.
    - Side effects are threaded through a state-and-exception monad [M];
      every observable effect is also appended to a [trace], so that the
      order of effects can be stated.
    - The DOM is not modelled.

    Layout: the embedding of the sources, module by module; the
    vocabulary in which the properties are stated; the properties. *)

From Stdlib Require Import ZArith Lia Ascii String List Wf_nat.
From stdpp Require Import gmap strings list pretty.

Set Warnings "-register-all".

Local Open Scope string_scope.
Local Open Scope Z_scope.

(* ===================================================================== *)
(** * JavaScript values *)
(* ===================================================================== *)

Module Js.

(** Built-in objects that are reachable from JSON data through the
    prototype chain. *)
Inductive Builtin : Type :=
  | ObjectPrototype
  | ArrayPrototype
  | BuiltinFunction (name : string).

(** The values the modelled code handles: primitives, arrays and plain
    objects (own properties in insertion order), and built-ins. Numbers
    are only carried around, never computed with; integers suffice. *)
Inductive JsValue : Type :=
  | JUndefined
  | JNull
  | JBool (b : bool)
  | JNum (n : Z)
  | JStr (s : string)
  | JArr (elems : list JsValue)
  | JObj (props : list (string * JsValue))
  | JBuiltin (b : Builtin).

(** ToBoolean. *)
Definition truthy (v : JsValue) : bool :=
  match v with
  | JUndefined | JNull => false
  | JBool b => b
  | JNum n => negb (n =? 0)
  | JStr s => negb (String.eqb s "")
  | JArr _ | JObj _ | JBuiltin _ => true
  end.

(** The [typeof] operator. *)
Definition typeof (v : JsValue) : string :=
  match v with
  | JUndefined => "undefined"
  | JNull => "object"
  | JBool _ => "boolean"
  | JNum _ => "number"
  | JStr _ => "string"
  | JArr _ | JObj _ => "object"
  | JBuiltin (BuiltinFunction _) => "function"
  | JBuiltin _ => "object"
  end.

(** [v === 'lit'] for a string literal. *)
Definition is_string (v : JsValue) (lit : string) : bool :=
  match v with
  | JStr s => String.eqb s lit
  | _ => false
  end.

(** Own property of a plain object. *)
Fixpoint assoc (k : string) (props : list (string * JsValue)) : option JsValue :=
  match props with
  | [] => None
  | (k', v) :: rest => if String.eqb k k' then Some v else assoc k rest
  end.


(** String-keyed members of [Object.prototype]. *)
Definition object_prototype_names : list string :=
  [ "constructor"; "__defineGetter__"; "__defineSetter__"; "hasOwnProperty";
    "__lookupGetter__"; "__lookupSetter__"; "isPrototypeOf";
    "propertyIsEnumerable"; "toString"; "valueOf"; "__proto__";
    "toLocaleString" ].

(** String-keyed members of [Array.prototype]. *)
Definition array_prototype_names : list string :=
  [ "constructor"; "at"; "concat"; "copyWithin"; "fill"; "find"; "findIndex";
    "findLast"; "findLastIndex"; "lastIndexOf"; "pop"; "push"; "reverse";
    "shift"; "unshift"; "slice"; "sort"; "splice"; "includes"; "indexOf";
    "join"; "keys"; "entries"; "values"; "forEach"; "filter"; "flat";
    "flatMap"; "map"; "every"; "some"; "reduce"; "reduceRight";
    "toLocaleString"; "toString"; "toReversed"; "toSorted"; "toSpliced";
    "with" ].

Definition mem (k : string) (names : list string) : bool :=
  existsb (String.eqb k) names.

(** Canonical array index: a decimal numeral without leading zero. *)
Definition digit_of (c : ascii) : option N :=
  let n := N_of_ascii c in
  if ((48 <=? n) && (n <=? 57))%N then Some (n - 48)%N else None.

Fixpoint parse_digits (s : string) (acc : N) : option N :=
  match s with
  | EmptyString => Some acc
  | String c rest =>
      match digit_of c with
      | Some d => parse_digits rest (10 * acc + d)%N
      | None => None
      end
  end.

Definition parse_index (k : string) : option N :=
  match k with
  | EmptyString => None
  | String "0"%char EmptyString => Some 0%N
  | String "0"%char _ => None
  | _ => parse_digits k 0%N
  end.

Definition array_element (elems : list JsValue) (k : string) : option JsValue :=
  match parse_index k with
  | Some i => elems !! N.to_nat i
  | None => None
  end.

(** The [in] operator, [k in v], on an object [v]: own properties first,
    then the prototype chain. On a primitive [in] raises a TypeError; the
    code under study guards it with [typeof v === 'object'], and the model
    answers [false] there. *)
Definition has_property (k : string) (v : JsValue) : bool :=
  match v with
  | JObj props =>
      bool_decide (is_Some (assoc k props)) || mem k object_prototype_names
  | JArr elems =>
      bool_decide (is_Some (array_element elems k)) || String.eqb k "length"
      || mem k array_prototype_names || mem k object_prototype_names
  | JBuiltin ObjectPrototype => mem k object_prototype_names
  | JBuiltin ArrayPrototype =>
      String.eqb k "length" || mem k array_prototype_names
      || mem k object_prototype_names
  | _ => false
  end.

(** Member read through [Object.prototype]; [proto] is what [__proto__]
    answers for the receiver. *)
Definition object_prototype_get (proto : JsValue) (k : string) : JsValue :=
  if String.eqb k "__proto__" then proto
  else if String.eqb k "constructor" then JBuiltin (BuiltinFunction "Object")
  else if mem k object_prototype_names then JBuiltin (BuiltinFunction k)
  else JUndefined.

Definition array_prototype_get (proto : JsValue) (k : string) : JsValue :=
  if String.eqb k "constructor" then JBuiltin (BuiltinFunction "Array")
  else if mem k array_prototype_names then JBuiltin (BuiltinFunction k)
  else object_prototype_get proto k.

(** Property read [v[k]]. *)
Definition get_property (v : JsValue) (k : string) : JsValue :=
  match v with
  | JObj props =>
      match assoc k props with
      | Some x => x
      | None => object_prototype_get (JBuiltin ObjectPrototype) k
      end
  | JArr elems =>
      match array_element elems k with
      | Some x => x
      | None =>
          if String.eqb k "length" then JNum (Z.of_nat (length elems))
          else array_prototype_get (JBuiltin ArrayPrototype) k
      end
  | JBuiltin ObjectPrototype => object_prototype_get JNull k
  | JBuiltin ArrayPrototype =>
      if String.eqb k "length" then JNum 0
      else array_prototype_get (JBuiltin ObjectPrototype) k
  | _ => JUndefined
  end.

(** [Object.keys(v)]: own enumerable string keys. *)
Definition object_keys (v : JsValue) : list string :=
  match v with
  | JObj props => map fst props
  | JArr elems => map (fun i : nat => pretty i) (seq 0 (length elems))
  | JStr s => map (fun i : nat => pretty i) (seq 0 (String.length s))
  | _ => []
  end.

(** ToString, as applied by template literals and by
    [localStorage.setItem]. *)
Fixpoint to_string (v : JsValue) : string :=
  match v with
  | JUndefined => "undefined"
  | JNull => "null"
  | JBool true => "true"
  | JBool false => "false"
  | JNum n => pretty n
  | JStr s => s
  | JArr elems =>
      (fix join (l : list JsValue) : string :=
         match l with
         | [] => ""
         | x :: rest =>
             let item :=
               match x with
               | JUndefined | JNull => ""
               | _ => to_string x
               end in
             match rest with
             | [] => item
             | _ => item ++ "," ++ join rest
             end
         end) elems
  | JObj _ => "[object Object]"
  | JBuiltin ObjectPrototype => "[object Object]"
  | JBuiltin ArrayPrototype => ""
  | JBuiltin (BuiltinFunction name) => "function " ++ name ++ "() { [native code] }"
  end.

End Js.
Export Js.

(* ===================================================================== *)
(** * Effects, the world and the monad *)
(* ===================================================================== *)

Module Eff.

(** A thrown value: an [Error] with its message, or any other value. *)
Inductive Exn : Type :=
  | Error (msg : string)
  | Thrown (v : JsValue).

(** Payloads of the events the modelled code emits. *)
Inductive Payload : Type :=
  | NoPayload
  | StateChanged (key : string) (value oldValue : JsValue)
  | Lang (lang : string)
  | LangTranslations (lang : string) (translations : JsValue)
  | LangError (lang : string) (error : Exn).

(** Observable effects, in the order they happen. *)
Inductive Effect : Type :=
  | StateWrite (key : string) (value : JsValue)
  | StateReplace (fields : list (string * JsValue))
  | StorageSet (key value : string)
  | StorageRemove (key : string)
  | Invoke (callback : nat) (value oldValue : JsValue)
  | ConsoleError (msg : string) (error : Exn)
  | ConsoleWarn (msg : string)
  | ConsoleLog (msg : string)
  | Fetch (path : string)
  | Listen (event : string)
  | Emit (event : string) (payload : Payload).

(** A subscriber closure. Function identity (what [indexOf] compares) is
    [cb_id]; [cb_run value oldValue] says whether the call returns
    ([None]) or throws ([Some e]). Subscribers are observers: they do not
    call back into the store while they are being notified. *)
Record Callback : Type := mkCallback {
  cb_id : nat;
  cb_run : JsValue -> JsValue -> option Exn
}.

Record World : Type := mkWorld {
  state : gmap string JsValue;              (* StateManager.state *)
  subscribers : gmap string (list Callback); (* StateManager.subscribers *)
  localStorage : gmap string string;        (* window.localStorage *)
  translations : JsValue;                   (* I18nManager.translations *)
  isLoading : bool;                         (* I18nManager.isLoading *)
  trace : list Effect
}.

Definition with_state (f : gmap string JsValue -> gmap string JsValue) (w : World) : World :=
  mkWorld (f (state w)) (subscribers w) (localStorage w) (translations w) (isLoading w) (trace w).

Definition with_subscribers (f : gmap string (list Callback) -> gmap string (list Callback))
    (w : World) : World :=
  mkWorld (state w) (f (subscribers w)) (localStorage w) (translations w) (isLoading w) (trace w).

Definition with_localStorage (f : gmap string string -> gmap string string) (w : World) : World :=
  mkWorld (state w) (subscribers w) (f (localStorage w)) (translations w) (isLoading w) (trace w).

Definition with_translations (v : JsValue) (w : World) : World :=
  mkWorld (state w) (subscribers w) (localStorage w) v (isLoading w) (trace w).

Definition with_isLoading (b : bool) (w : World) : World :=
  mkWorld (state w) (subscribers w) (localStorage w) (translations w) b (trace w).

Definition logs (es : list Effect) (w : World) : World :=
  mkWorld (state w) (subscribers w) (localStorage w) (translations w) (isLoading w)
          (trace w ++ es).

Definition log (e : Effect) (w : World) : World := logs [e] w.

(** How a call ends. *)
Inductive Outcome (A : Type) : Type :=
  | Returned (a : A)
  | Threw (e : Exn).
Arguments Returned {A} a.
Arguments Threw {A} e.

Definition M (A : Type) : Type := World -> Outcome A * World.

Definition ret {A} (a : A) : M A := fun w => (Returned a, w).

Definition bind {A B} (m : M A) (k : A -> M B) : M B :=
  fun w =>
    match m w with
    | (Returned a, w') => k a w'
    | (Threw e, w') => (Threw e, w')
    end.

Definition throw {A} (e : Exn) : M A := fun w => (Threw e, w).

(** [try { body } catch (e) { handler e }]. *)
Definition try_catch {A} (body : M A) (handler : Exn -> M A) : M A :=
  fun w =>
    match body w with
    | (Returned a, w') => (Returned a, w')
    | (Threw e, w') => handler e w'
    end.

(** [try { body } catch (e) { handler e } finally { final }]. *)
Definition try_catch_finally {A} (body : M A) (handler : Exn -> M A) (final : M unit) : M A :=
  fun w =>
    match try_catch body handler w with
    | (r, w') =>
        match final w' with
        | (Returned _, w'') => (r, w'')
        | (Threw e, w'') => (Threw e, w'')
        end
    end.

Definition gets {A} (f : World -> A) : M A := fun w => (Returned (f w), w).
Definition modify (f : World -> World) : M unit := fun w => (Returned tt, f w).
Definition effect (e : Effect) : M unit := modify (log e).

(** [list.forEach(f)]. *)
Fixpoint forEach {A} (l : list A) (f : A -> M unit) : M unit :=
  match l with
  | [] => ret tt
  | x :: rest => bind (f x) (fun _ => forEach rest f)
  end.

Definition exec {A} (m : M A) (w : World) : World := snd (m w).
Definition outcome {A} (m : M A) (w : World) : Outcome A := fst (m w).

Definition returns {A} (m : M A) (w : World) : Prop :=
  exists a, outcome m w = Returned a.

End Eff.
Export Eff.

Declare Scope js_scope.
Delimit Scope js_scope with js.
Notation "'let*' x ':=' c 'in' k" := (bind c (fun x => k))
  (at level 10, x name, c at level 100, k at level 200) : js_scope.
Notation "c1 ';;' c2" := (bind c1 (fun _ => c2))
  (at level 100, c2 at level 200, right associativity) : js_scope.
Local Open Scope js_scope.

(* ===================================================================== *)
(** * Browser and EventBus primitives *)
(* ===================================================================== *)

Module Env.

(** [localStorage.getItem(key)]: the stored string, or [null]. *)
Definition getItem (key : string) : M (option string) :=
  gets (fun w => localStorage w !! key).

(** [localStorage.setItem(key, value)] stores [String(value)]. *)
Definition setItem (key : string) (value : JsValue) : M unit :=
  modify (with_localStorage (insert key (to_string value)));;
  effect (StorageSet key (to_string value)).

Definition removeItem (key : string) : M unit :=
  modify (with_localStorage (delete key));;
  effect (StorageRemove key).

Definition console_error (msg : string) (error : Exn) : M unit :=
  effect (ConsoleError msg error).
Definition console_warn (msg : string) : M unit := effect (ConsoleWarn msg).
Definition console_log (msg : string) : M unit := effect (ConsoleLog msg).

(** Modelled from the spec: the EventBus class is not among the sources.
    Section 4.1: [emit(eventName, payload)] invokes all registered handlers
    synchronously, swallowing and logging any handler exception. The model
    records the emission and returns normally. *)
Definition emit (event : string) (payload : Payload) : M unit :=
  effect (Emit event payload).

(** Modelled from the spec: [on(eventName, handler)] of the same class
    registers a handler; the model records the registration. *)
Definition on (event : string) : M unit := effect (Listen event).

End Env.
Export Env.

(* ===================================================================== *)
(** * StateManager *)
(* ===================================================================== *)

Module StateManager.

(** The object literal of the constructor. *)
Definition constructor_state : list (string * JsValue) :=
  [ ("theme", JStr "light");
    ("language", JStr "ko");
    ("isNavOpen", JBool false);
    ("isTypingAnimationComplete", JBool false);
    ("translations", JObj []) ].

(** The object literal of [reset]. *)
Definition reset_state : list (string * JsValue) :=
  [ ("theme", JStr "light");
    ("language", JStr "en");
    ("isNavOpen", JBool false);
    ("isTypingAnimationComplete", JBool false);
    ("translations", JObj []) ].

Definition object_of (fields : list (string * JsValue)) : gmap string JsValue :=
  list_to_map fields.

(** [this.state[key]] *)
Definition read_state (key : string) : M JsValue :=
  gets (fun w => default JUndefined (state w !! key)).

(** [this.state[key] = value] *)
Definition write_state (key : string) (value : JsValue) : M unit :=
  modify (with_state (insert key value));;
  effect (StateWrite key value).

Definition loadPersistedState : M unit :=
  let* savedTheme := getItem "portfolio-theme" in
  let* savedLang := getItem "portfolio-lang" in
  (match savedTheme with
   | Some s => if String.eqb s "" then ret tt else write_state "theme" (JStr s)
   | None => ret tt
   end);;
  (match savedLang with
   | Some s => if String.eqb s "" then ret tt else write_state "language" (JStr s)
   | None => ret tt
   end).

(** [setupEventListeners]: the 'state:set' handler is [setState] on the
    key and value of the payload, the 'state:get' handler hands
    [getState(key)] to the callback of the payload. *)
Definition setupEventListeners : M unit :=
  on "state:set";;
  on "state:get".

Definition init : M unit :=
  loadPersistedState;;
  setupEventListeners.

(** The page before any manager runs, in a browser whose storage is
    [storage]: the literal state and the empty registry of the
    StateManager constructor, and the initial fields of I18nManager. *)
Definition fresh (storage : gmap string string) : World :=
  mkWorld (object_of constructor_state) ∅ storage (JObj []) false [].

(** [new StateManager()] *)
Definition constructor (storage : gmap string string) : World :=
  exec init (fresh storage).

(** [getState(key)]: the whole state object when [key] is falsy. *)
Definition getState (key : string) : M JsValue :=
  if String.eqb key ""
  then gets (fun w => JObj (map_to_list (state w)))
  else read_state key.

Definition persistState (key : string) (value : JsValue) : M unit :=
  if String.eqb key "theme" then setItem "portfolio-theme" value
  else if String.eqb key "language" then setItem "portfolio-lang" value
  else ret tt.

(** [callback(value, oldValue)] *)
Definition call (cb : Callback) (value oldValue : JsValue) : M unit :=
  effect (Invoke (cb_id cb) value oldValue);;
  match cb_run cb value oldValue with
  | None => ret tt
  | Some e => throw e
  end.

Definition subscriber_error_message (key : string) : string :=
  "Error in state subscriber for '" ++ key ++ "':".

Definition notifySubscribers (key : string) (value oldValue : JsValue) : M unit :=
  let* registered := gets (fun w => subscribers w !! key) in
  match registered with
  | None => ret tt
  | Some callbacks =>
      forEach callbacks (fun callback =>
        try_catch (call callback value oldValue)
                  (fun error => console_error (subscriber_error_message key) error))
  end.

Definition setState (key : string) (value : JsValue) : M unit :=
  let* oldValue := read_state key in
  write_state key value;;
  persistState key value;;
  notifySubscribers key value oldValue;;
  emit "state:changed" (StateChanged key value oldValue).

(** [subscribe(key, callback)]; the returned closure is
    [unsubscribe key callback]. *)
Definition subscribe (key : string) (callback : Callback) : M unit :=
  modify (with_subscribers (fun subs =>
    <[key := (default [] (subs !! key) ++ [callback])%list]> subs)).

(** [callbacks.indexOf(callback)] followed by [splice(index, 1)]. *)
Fixpoint remove_first (id : nat) (callbacks : list Callback) : list Callback :=
  match callbacks with
  | [] => []
  | c :: rest => if Nat.eqb (cb_id c) id then rest else c :: remove_first id rest
  end.

Definition unsubscribe (key : string) (callback : Callback) : M unit :=
  modify (with_subscribers (fun subs =>
    match subs !! key with
    | None => subs
    | Some callbacks =>
        match remove_first (cb_id callback) callbacks with
        | [] => delete key subs
        | remaining => <[key := remaining]> subs
        end
    end)).

Definition reset : M unit :=
  modify (with_state (fun _ => object_of reset_state));;
  effect (StateReplace reset_state);;
  removeItem "portfolio-theme";;
  removeItem "portfolio-lang";;
  forEach (map fst reset_state) (fun key =>
    let* value := read_state key in
    notifySubscribers key value JUndefined);;
  emit "state:reset" NoPayload.

End StateManager.

(* ===================================================================== *)
(** * ThemeManager *)
(* ===================================================================== *)

Module ThemeManager.

Definition getCurrentTheme : M JsValue := StateManager.getState "theme".

Definition invalid_theme_message (theme : JsValue) : string :=
  "Invalid theme: " ++ to_string theme ++ ". Using 'light' as fallback.".

Definition setTheme (theme : JsValue) : M unit :=
  let* theme :=
    if negb (is_string theme "light") && negb (is_string theme "dark")
    then console_warn (invalid_theme_message theme);; ret (JStr "light")
    else ret theme in
  StateManager.setState "theme" theme.

Definition toggleTheme : M unit :=
  let* currentTheme := StateManager.getState "theme" in
  let newTheme := if is_string currentTheme "dark" then JStr "light" else JStr "dark" in
  setTheme newTheme.

(** [isDarkTheme()] *)
Definition isDarkTheme : M bool :=
  let* theme := getCurrentTheme in
  ret (is_string theme "dark").

(** The part of the document [applyTheme] touches: the [data-theme]
    attribute of the root element ([None] when the attribute is absent)
    and the class list of the toggle control ([None] when [setupDOM] found
    no element with id 'menu-theme-toggle'). *)
Record ThemeDom : Type := mkThemeDom {
  data_theme : option string;
  themeToggle : option (list string)
}.

(** [classList.add(token)] and [classList.remove(token)] on the ordered
    set of tokens of a class list. *)
Definition classList_add (token : string) (classes : list string) : list string :=
  if mem token classes then classes else (classes ++ [token])%list.

Definition classList_remove (token : string) (classes : list string) : list string :=
  List.filter (fun c => negb (String.eqb c token)) classes.

Definition applyTheme (theme : JsValue) (dom : ThemeDom) : ThemeDom :=
  if is_string theme "light" then
    mkThemeDom None
      (match themeToggle dom with
       | Some classes => Some (classList_remove "dark" (classList_add "light" classes))
       | None => None
       end)
  else
    mkThemeDom (Some "dark")
      (match themeToggle dom with
       | Some classes => Some (classList_remove "light" (classList_add "dark" classes))
       | None => None
       end).

End ThemeManager.

(* ===================================================================== *)
(** * NavManager and App: the callers that drive [isNavOpen] *)
(* ===================================================================== *)

Module NavManager.

Definition isNavOpen : M JsValue := StateManager.getState "isNavOpen".

Definition toggleNav : M unit :=
  let* isOpen := isNavOpen in
  StateManager.setState "isNavOpen" (JBool (negb (truthy isOpen))).

Definition openNav : M unit := StateManager.setState "isNavOpen" (JBool true).

Definition closeNav : M unit := StateManager.setState "isNavOpen" (JBool false).

End NavManager.

Module App.

(** [currentState !== isOpen] for a boolean [isOpen] *)
Definition differs_from (currentState : JsValue) (isOpen : bool) : bool :=
  match currentState with
  | JBool b => negb (Bool.eqb b isOpen)
  | _ => true
  end.

(** The 'nav:stateChanged' handler of [setupManagerCommunication]; the
    payload NavManager emits carries the boolean [isOpen]. *)
Definition onNavStateChanged (isOpen : bool) : M unit :=
  let* currentState := StateManager.getState "isNavOpen" in
  if differs_from currentState isOpen
  then StateManager.setState "isNavOpen" (JBool isOpen)
  else ret tt.

End App.

(* ===================================================================== *)
(** * I18nManager *)
(* ===================================================================== *)

Module I18nManager.

(** What [fetch(path)] settles to: a rejection, or a response with its
    [ok] flag, its status and what [response.json()] parses ([None] when
    the body is not JSON and [json()] rejects). *)
Record Response : Type := mkResponse {
  ok : bool;
  status : Z;
  json : option JsValue
}.

Inductive FetchResult : Type :=
  | Rejected (error : Exn)
  | Responded (response : Response).

Definition getCurrentLanguage : M JsValue := StateManager.getState "language".

Definition fallback_ko : JsValue :=
  JObj [
    ("meta", JObj [
      ("title", JStr "이우용 - 포트폴리오");
      ("description", JStr "백엔드 개발자 포트폴리오");
      ("keywords", JStr "백엔드 개발자, Java, Spring, 포트폴리오");
      ("favicon", JStr "./favicon.png") ]);
    ("hero", JObj [
      ("line1", JStr "안녕하세요,");
      ("line2", JStr "이우용 입니다.");
      ("name", JStr "이우용");
      ("subtitle", JStr "백엔드 개발자");
      ("ctaText", JStr "프로젝트 보기");
      ("ctaLink", JStr "#projects") ]);
    ("about", JObj [
      ("title", JStr "소개");
      ("description", JStr "깔끔하고 확장 가능한 시스템 구축에 열정을 가지고 있습니다.");
      ("details", JArr [JStr "현대적인 기술로 의미 있는 솔루션을 만들어갑니다."]) ]);
    ("projects", JObj [ ("title", JStr "프로젝트"); ("items", JArr []) ]);
    ("skills", JObj [ ("title", JStr "기술 스택"); ("categories", JArr []) ]);
    ("blog", JObj [ ("title", JStr "블로그"); ("posts", JArr []) ]);
    ("footer", JObj [
      ("copyright", JStr "© 2025");
      ("author", JStr "이우용");
      ("authorLink", JStr "#") ]);
    ("ui", JObj [ ("github", JStr "GitHub"); ("readMore", JStr "자세히 보기") ]);
    ("social", JObj [ ("github", JStr "#"); ("linkedin", JStr "#") ]) ].

Definition fallback_en : JsValue :=
  JObj [
    ("meta", JObj [
      ("title", JStr "Wooyong Lee - Portfolio");
      ("description", JStr "Backend Developer Portfolio");
      ("keywords", JStr "backend developer, Java, Spring, portfolio");
      ("favicon", JStr "./favicon.png") ]);
    ("hero", JObj [
      ("line1", JStr "Hi, I'm");
      ("line2", JStr "Wooyong Lee");
      ("name", JStr "Wooyong Lee");
      ("subtitle", JStr "Backend Developer");
      ("ctaText", JStr "View My Work");
      ("ctaLink", JStr "#projects") ]);
    ("about", JObj [
      ("title", JStr "About Me");
      ("description", JStr "I'm passionate about building clean and scalable systems.");
      ("details", JArr [JStr "Creating meaningful solutions with modern technologies."]) ]);
    ("projects", JObj [ ("title", JStr "Projects"); ("items", JArr []) ]);
    ("skills", JObj [ ("title", JStr "Skills"); ("categories", JArr []) ]);
    ("blog", JObj [ ("title", JStr "Blog"); ("posts", JArr []) ]);
    ("footer", JObj [
      ("copyright", JStr "© 2025");
      ("author", JStr "Wooyong Lee");
      ("authorLink", JStr "#") ]);
    ("ui", JObj [ ("github", JStr "GitHub"); ("readMore", JStr "Read More") ]);
    ("social", JObj [ ("github", JStr "#"); ("linkedin", JStr "#") ]) ].

Definition getFallbackTranslations : M JsValue :=
  let* currentLang := getCurrentLanguage in
  if is_string currentLang "ko" then ret fallback_ko else ret fallback_en.

Definition possiblePaths (lang : string) : list string :=
  [ "./languages/" ++ lang ++ ".json";
    "languages/" ++ lang ++ ".json";
    "/languages/" ++ lang ++ ".json" ].

Section Network.

(** The network, as the page sees it. *)
Variable fetch : string -> FetchResult.

(** The [for (const path of possiblePaths)] loop, with its two locals. *)
Fixpoint try_paths (paths : list string) (response : option Response)
    (lastError : option Exn) : M (option Response * option Exn) :=
  match paths with
  | [] => ret (response, lastError)
  | path :: rest =>
      effect (Fetch path);;
      match fetch path with
      | Responded r =>
          if ok r then ret (Some r, lastError)
          else try_paths rest (Some r)
                 (Some (Error ("HTTP " ++ pretty (status r) ++ " for " ++ path)))
      | Rejected error => try_paths rest response (Some error)
      end
  end.

Definition response_ok (response : option Response) : bool :=
  match response with
  | Some r => ok r
  | None => false
  end.

(** The body of the [try] block. *)
Definition load (lang : string) : M unit :=
  let* found := try_paths (possiblePaths lang) None None in
  let '(response, lastError) := found in
  match response with
  | Some r =>
      if ok r then
        match json r with
        | None => throw (Error "SyntaxError")
        | Some data =>
            if negb (truthy data) || negb (String.eqb (typeof data) "object")
            then throw (Error "Invalid translation data format")
            else
              modify (with_translations data);;
              StateManager.setState "translations" data;;
              console_log ("Successfully loaded " ++ lang ++ " translations");;
              emit "i18n:loadingSuccess" (LangTranslations lang data)
        end
      else throw (default (Error ("Failed to load translations for " ++ lang)) lastError)
  | None => throw (default (Error ("Failed to load translations for " ++ lang)) lastError)
  end.

Definition recover (lang : string) (error : Exn) : M unit :=
  console_error ("Failed to load " ++ lang ++ " translations:") error;;
  console_warn ("Using fallback translations for " ++ lang);;
  let* fallback := getFallbackTranslations in
  modify (with_translations fallback);;
  StateManager.setState "translations" fallback;;
  emit "i18n:loadingError" (LangError lang error).

(** [loadTranslations(lang = 'en')]; [None] is the omitted argument. The
    removal of the 'language-switching' class from the body in [finally]
    touches the DOM only and is left out. *)
Definition loadTranslations (lang : option string) : M unit :=
  let lang := default "en" lang in
  let* busy := gets isLoading in
  if busy then ret tt
  else
    modify (with_isLoading true);;
    emit "i18n:loadingStart" (Lang lang);;
    try_catch_finally
      (load lang)
      (recover lang)
      (modify (with_isLoading false);;
       emit "i18n:loadingEnd" (Lang lang)).

End Network.

(** [isReady()] *)
Definition nonempty (v : JsValue) : bool :=
  truthy v && (0 <? length (object_keys v))%nat.

Definition isReady : M bool := gets (fun w => nonempty (translations w)).

(** [key.split('.')] *)
Fixpoint split_dot (s : string) : list string :=
  match s with
  | EmptyString => [EmptyString]
  | String c rest =>
      if Ascii.eqb c "."%char then EmptyString :: split_dot rest
      else match split_dot rest with
           | [] => [String c EmptyString]
           | seg :: segs => String c seg :: segs
           end
  end.

(** The [for (const k of keys)] loop of [t], with its early return. *)
Fixpoint t_loop (keys : list string) (value fallback : JsValue) : JsValue :=
  match keys with
  | [] => value
  | k :: rest =>
      if truthy value && String.eqb (typeof value) "object" && has_property k value
      then t_loop rest (get_property value k) fallback
      else fallback
  end.

(** [t(key, fallback = key)]: an omitted or [undefined] fallback is the
    key itself. *)
Definition t_on (translations : JsValue) (key : string) (fallback : JsValue) : JsValue :=
  let fallback := match fallback with JUndefined => JStr key | _ => fallback end in
  t_loop (split_dot key) translations fallback.

Definition t (key : string) (fallback : JsValue) : M JsValue :=
  gets (fun w => t_on (translations w) key fallback).

End I18nManager.

(* ===================================================================== *)
(** * BlogManager: the pure feed transformations *)
(* ===================================================================== *)

Module BlogManager.

Local Open Scope list_scope.

(** Feed text is measured and cut by [length] and [substring], which
    count UTF-16 code units: a string of feed text is the list of its
    code units. *)
Definition ustring : Type := list N.

(** An ASCII literal. *)
Definition lit (s : string) : ustring := map N_of_ascii (list_ascii_of_string s).

Definition LT : N := 60.  (* '<' *)
Definition GT : N := 62.  (* '>' *)

(** [html.replace(/<[^>]*>/g, '')]: at a ['<'] the pattern matches
    through the first ['>'] after it; when no ['>'] follows, neither this
    ['<'] nor anything after it starts a match and the rest is kept. *)
Fixpoint strip_tags (s : ustring) : ustring :=
  match s with
  | [] => []
  | c :: rest =>
      if (c =? LT)%N then
        match (fix close (u : ustring) : option ustring :=
                 match u with
                 | [] => None
                 | d :: u' => if (d =? GT)%N then Some (strip_tags u') else close u'
                 end) rest with
        | Some out => out
        | None => s
        end
      else c :: strip_tags rest
  end.

(** WhiteSpace and LineTerminator code units, as [trim] strips them. *)
Definition is_space (c : N) : bool :=
  ((9 <=? c) && (c <=? 13) || (c =? 32) || (c =? 160) || (c =? 5760)
   || (8192 <=? c) && (c <=? 8202) || (c =? 8232) || (c =? 8233)
   || (c =? 8239) || (c =? 8287) || (c =? 12288) || (c =? 65279))%N.

Fixpoint trim_start (s : ustring) : ustring :=
  match s with
  | [] => []
  | c :: rest => if is_space c then trim_start rest else s
  end.

Definition trim (s : ustring) : ustring := rev (trim_start (rev (trim_start s))).

(** [text.substring(0, n)] *)
Definition substring0 (n : nat) (s : ustring) : ustring := take n s.

Definition cleanHtmlAndTruncate (html : ustring) (maxLength : nat) : ustring :=
  let text := trim (strip_tags html) in
  if (length text <=? maxLength)%nat then text
  else trim (substring0 maxLength text) ++ lit "...".

(** A number as the date getters return it. *)
Inductive Num : Type :=
  | NaN
  | Int (z : Z).

Definition plus_one (n : Num) : Num :=
  match n with
  | NaN => NaN
  | Int z => Int (z + 1)
  end.

(** [String(n)] and [`${n}`] *)
Definition String_ (n : Num) : ustring :=
  match n with
  | NaN => lit "NaN"
  | Int z => lit (pretty z)
  end.

(** [s.padStart(targetLength, '0')] *)
Definition padStart0 (targetLength : nat) (s : ustring) : ustring :=
  repeat 48%N (targetLength - length s) ++ s.

(** '날짜 미상' *)
Definition date_unknown : ustring := [45216; 51676; 32; 48120; 49345]%N.
(** '제목 없음' *)
Definition no_title : ustring := [51228; 47785; 32; 50630; 51020]%N.

Definition obind {A B} (m : Outcome A) (k : A -> Outcome B) : Outcome B :=
  match m with
  | Returned a => k a
  | Threw e => Threw e
  end.

(** [try { return body } catch (error) { return handler }] *)
Definition try_return {A} (body : Outcome A) (handler : Exn -> A) : A :=
  match body with
  | Returned a => a
  | Threw e => handler e
  end.

Notation "'let?' x ':=' c 'in' k" := (obind c (fun x => k))
  (at level 10, x name, c at level 100, k at level 200).

Section Dates.

(** The host's date arithmetic: [date_parse s] is the time value of
    [new Date(s)], [None] for an Invalid Date; the three getters read a
    valid time value in the browser's time zone. *)
Variable date_parse : ustring -> option Z.
Variable local_year local_month local_day : Z -> Z.

(** The Date constructor on a string and the getters do not throw; on an
    Invalid Date the getters answer [NaN]. *)
Definition new_Date (dateString : ustring) : Outcome (option Z) :=
  Returned (date_parse dateString).

Definition getter (f : Z -> Z) (date : option Z) : Outcome Num :=
  Returned (match date with
            | Some time => Int (f time)
            | None => NaN
            end).

Definition getFullYear := getter local_year.
Definition getMonth := getter local_month.
Definition getDate := getter local_day.

(** The body of the [try] block of [formatDate]. *)
Definition formatDate_try (dateString : ustring) : Outcome ustring :=
  let? date := new_Date dateString in
  let? year := getFullYear date in
  let? m := getMonth date in
  let month := padStart0 2 (String_ (plus_one m)) in
  let? d := getDate date in
  let day := padStart0 2 (String_ d) in
  Returned (String_ year ++ lit "." ++ month ++ lit "." ++ day).

Definition formatDate (dateString : ustring) : ustring :=
  try_return (formatDate_try dateString) (fun error => date_unknown).

(** A feed category: the text of a [<category>] element, or (in the
    legacy JSON envelope) an object with an optional [name]. *)
Inductive Category : Type :=
  | CategoryText (text : ustring)
  | CategoryObject (name : option ustring).

(** [x || fallback] on an optional string *)
Definition or_default (x : option ustring) (fallback : ustring) : ustring :=
  match x with
  | Some (c :: s) => c :: s
  | _ => fallback
  end.

Definition extractTags (categories : list Category) : list ustring :=
  match categories with
  | [] => [lit "Blog"]
  | _ =>
      map (fun category =>
             match category with
             | CategoryText text => text
             | CategoryObject name => or_default name (lit "Blog")
             end)
          (take 3 categories)
  end.

(** An [<item>] of the feed: the [textContent] of its first [title],
    [link], [description] and [pubDate] descendants ([None] when there is
    no such element) and of all its [category] descendants. *)
Record RssItem : Type := mkItem {
  item_title : option ustring;
  item_link : option ustring;
  item_description : option ustring;
  item_pubDate : option ustring;
  item_categories : list ustring
}.

Record PostSummary : Type := mkPost {
  title : ustring;
  description : ustring;
  date : ustring;
  link : ustring;
  tags : list ustring;
  source : ustring
}.

Definition maxPosts : nat := 6.

(** The body of the loop of [parseRssXml]. *)
Definition parseItem (item : RssItem) : PostSummary :=
  let title := or_default (item_title item) no_title in
  let link := or_default (item_link item) (lit "#") in
  let description := or_default (item_description item) [] in
  let pubDate := or_default (item_pubDate item) [] in
  let categories := map CategoryText (item_categories item) in
  let cleanDescription := cleanHtmlAndTruncate description 150 in
  let formattedDate := formatDate pubDate in
  let tags := extractTags categories in
  mkPost title cleanDescription formattedDate link tags (lit "tistory").

(** [parseRssXml(xmlDoc)], on the [<item>] elements of the document in
    document order. *)
Definition parseRssXml (items : list RssItem) : list PostSummary :=
  map parseItem (take (Nat.min (length items) maxPosts) items).

End Dates.

(** [s1 === s2] on feed text *)
Definition ustring_eqb (s1 s2 : ustring) : bool := bool_decide (s1 = s2).

(** The [for] loop of [arePostsEqual], over two arrays of equal length. *)
Fixpoint same_titles_and_dates (posts1 posts2 : list PostSummary) : bool :=
  match posts1, posts2 with
  | p1 :: rest1, p2 :: rest2 =>
      if negb (ustring_eqb (title p1) (title p2))
         || negb (ustring_eqb (date p1) (date p2))
      then false
      else same_titles_and_dates rest1 rest2
  | _, _ => true
  end.

(** [arePostsEqual(posts1, posts2)]; [None] is [null] or [undefined]. *)
Definition arePostsEqual (posts1 posts2 : option (list PostSummary)) : bool :=
  match posts1, posts2 with
  | Some p1, Some p2 =>
      if negb (length p1 =? length p2)%nat then false
      else same_titles_and_dates p1 p2
  | _, _ => false
  end.

Definition cacheKey : string := "tistory-blog-cache".
Definition cacheExpiry : Z := 30 * 60 * 1000.

(** What [const { data, timestamp } = JSON.parse(cached)] binds: [data]
    is a list of posts or some other value (possibly [undefined]);
    [timestamp] is given as the subtraction [Date.now() - timestamp] sees
    it, [NaN] when it is not a number. *)
Inductive CachedData : Type :=
  | CachedPosts (posts : list PostSummary)
  | CachedOther.

Record Envelope : Type := mkEnvelope {
  env_data : CachedData;
  env_timestamp : Num
}.

(** [Date.now() - timestamp > bound] and [Date.now() - timestamp < bound];
    a comparison with [NaN] is false. *)
Definition age_exceeds (now : Z) (timestamp : Num) (bound : Z) : bool :=
  match timestamp with
  | NaN => false
  | Int t => (bound <? now - t)%Z
  end.

Definition age_below (now : Z) (timestamp : Num) (bound : Z) : bool :=
  match timestamp with
  | NaN => false
  | Int t => (now - t <? bound)%Z
  end.

Section Cache.

(** [JSON.stringify({ data: posts, timestamp })] and what [JSON.parse]
    followed by the destructuring makes of a stored text ([None] when
    either throws). *)
Variable json_stringify : list PostSummary -> Z -> string.
Variable json_parse : string -> option Envelope.

(** [getCachedData()] at time [now = Date.now()]; [None] is [null]. *)
Definition getCachedData (now : Z) : M (option CachedData) :=
  try_catch
    (bind (getItem cacheKey) (fun cached =>
       match cached with
       | None => ret None
       | Some text =>
           if String.eqb text "" then ret None
           else
             match json_parse text with
             | None => throw (Error "SyntaxError")
             | Some envelope =>
                 if age_exceeds now (env_timestamp envelope) cacheExpiry
                 then bind (removeItem cacheKey) (fun _ => ret None)
                 else ret (Some (env_data envelope))
             end
       end))
    (fun error =>
       bind (console_error "캐시 데이터 로드 실패:" error) (fun _ =>
       bind (removeItem cacheKey) (fun _ =>
       ret None))).

(** [isCacheRecent(minutes)] at time [now]. *)
Definition isCacheRecent (minutes : Z) (now : Z) : M bool :=
  try_catch
    (bind (getItem cacheKey) (fun cached =>
       match cached with
       | None => ret false
       | Some text =>
           if String.eqb text "" then ret false
           else
             match json_parse text with
             | None => throw (Error "SyntaxError")
             | Some envelope =>
                 let timeThreshold := (minutes * 60 * 1000)%Z in
                 ret (age_below now (env_timestamp envelope) timeThreshold)
             end
       end))
    (fun error => ret false).

(** [setCachedData(posts)] at time [now]. *)
Definition setCachedData (posts : list PostSummary) (now : Z) : M unit :=
  try_catch
    (setItem cacheKey (JStr (json_stringify posts now)))
    (fun error => console_error "캐시 데이터 저장 실패:" error).

End Cache.

End BlogManager.

(* ===================================================================== *)
(** * Vocabulary of the properties *)
(* ===================================================================== *)

(** ** Traces *)

(** The effects produced by notifying one subscriber: the call, then the
    logged error when the call throws. *)
Definition notification (key : string) (value oldValue : JsValue) (cb : Callback)
    : list Effect :=
  Invoke (cb_id cb) value oldValue ::
  match cb_run cb value oldValue with
  | None => []
  | Some e => [ConsoleError (StateManager.subscriber_error_message key) e]
  end.

Definition notifications (key : string) (value oldValue : JsValue)
    (callbacks : list Callback) : list Effect :=
  concat (map (notification key value oldValue) callbacks).



(** The warnings logged through [console.warn], in order. *)
Definition warnings (es : list Effect) : list string :=
  omap (fun e => match e with
                 | ConsoleWarn msg => Some msg
                 | _ => None
                 end) es.

(** ** StateManager *)

(** The storage entry a state key is persisted under, if any. *)
Definition storage_key (key : string) : option string :=
  if decide (key = "theme") then Some "portfolio-theme"
  else if decide (key = "language") then Some "portfolio-lang"
  else None.

Definition persist_effects (key : string) (value : JsValue) : list Effect :=
  match storage_key key with
  | Some sk => [StorageSet sk (to_string value)]
  | None => []
  end.

Definition persist_storage (key : string) (value : JsValue)
    (storage : gmap string string) : gmap string string :=
  match storage_key key with
  | Some sk => <[sk := to_string value]> storage
  | None => storage
  end.

Definition setState_effects (key : string) (value : JsValue) (w : World) : list Effect :=
  let oldValue := default JUndefined (state w !! key) in
  ([StateWrite key value]
   ++ persist_effects key value
   ++ notifications key value oldValue (default [] (subscribers w !! key))
   ++ [Emit "state:changed" (StateChanged key value oldValue)])%list.

(** What [loadPersistedState] takes from a storage entry: a non-empty
    string. *)
Definition saved (storage : gmap string string) (key : string) : option string :=
  match storage !! key with
  | Some s => if String.eqb s "" then None else Some s
  | None => None
  end.

Definition restore (key : string) (item : option string)
    (st : gmap string JsValue) : gmap string JsValue :=
  match item with
  | Some s => <[key := JStr s]> st
  | None => st
  end.

Definition restore_effects (key : string) (item : option string) : list Effect :=
  match item with
  | Some s => [StateWrite key (JStr s)]
  | None => []
  end.

Definition reset_notifications (w : World) : list Effect :=
  concat (map (fun field : string * JsValue =>
                 notifications (fst field) (snd field) JUndefined
                   (default [] (subscribers w !! fst field)))
              StateManager.reset_state).

(** ** ThemeManager *)

(** What [setTheme] hands to the store. *)
Definition applied_theme (theme : JsValue) : JsValue :=
  if is_string theme "light" || is_string theme "dark" then theme else JStr "light".

(** The theme field holds one of the two theme names. *)
Definition theme_valid (w : World) : Prop :=
  state w !! "theme" = Some (JStr "light") \/ state w !! "theme" = Some (JStr "dark").

Definition toggle_twice : M unit := ThemeManager.toggleTheme;; ThemeManager.toggleTheme.

(** ** The operations that reach the store *)

(** The operations of the coordination layer that reach the store. *)
Inductive Op : Type :=
  | SetTheme (theme : JsValue)
  | ToggleTheme
  | Reset
  | SetState (key : string) (value : JsValue)
  | Subscribe (key : string) (callback : Callback)
  | Unsubscribe (key : string) (callback : Callback)
  | LoadTranslations (fetch : string -> I18nManager.FetchResult) (lang : option string).

Definition run (op : Op) : M unit :=
  match op with
  | SetTheme theme => ThemeManager.setTheme theme
  | ToggleTheme => ThemeManager.toggleTheme
  | Reset => StateManager.reset
  | SetState key value => StateManager.setState key value
  | Subscribe key callback => StateManager.subscribe key callback
  | Unsubscribe key callback => StateManager.unsubscribe key callback
  | LoadTranslations fetch lang => I18nManager.loadTranslations fetch lang
  end.

(** A direct [setState] leaves the theme field alone or writes a theme
    name into it. *)
Definition respects_theme (op : Op) : Prop :=
  match op with
  | SetState key value => key <> "theme" \/ value = JStr "light" \/ value = JStr "dark"
  | _ => True
  end.

(** The persisted theme is missing, empty or a theme name. *)
Definition storage_theme_ok (storage : gmap string string) : Prop :=
  saved storage "portfolio-theme" = None
  \/ saved storage "portfolio-theme" = Some "light"
  \/ saved storage "portfolio-theme" = Some "dark".

(** The states of the page: the one the constructor builds, and every
    state an operation that respects the theme leads to. *)
Inductive reachable (storage : gmap string string) : World -> Prop :=
  | reachable_start : reachable storage (StateManager.constructor storage)
  | reachable_step w op :
      reachable storage w -> respects_theme op -> reachable storage (exec (run op) w).

(** ** I18nManager *)

Section NetworkVocabulary.

Import I18nManager.

Variable fetch : string -> FetchResult.

(** The first response with [ok] set among the candidate paths. *)
Fixpoint first_ok (paths : list string) : option Response :=
  match paths with
  | [] => None
  | path :: rest =>
      match fetch path with
      | Responded r => if ok r then Some r else first_ok rest
      | Rejected _ => first_ok rest
      end
  end.

(** A payload the validation of [loadTranslations] accepts. *)
Definition acceptable (data : JsValue) : bool :=
  truthy data && String.eqb (typeof data) "object".


End NetworkVocabulary.

Definition fallback_for (w : World) : JsValue :=
  if is_string (default JUndefined (state w !! "language")) "ko"
  then I18nManager.fallback_ko else I18nManager.fallback_en.






(** ** BlogManager *)

Section FeedVocabulary.

Import BlogManager.
Local Open Scope list_scope.

Variable date_parse : ustring -> option Z.
Variable local_year local_month local_day : Z -> Z.

(** The rest of the text after the first ['>'], if there is one. *)
Fixpoint after_gt (u : ustring) : option ustring :=
  match u with
  | [] => None
  | d :: u' => if (d =? GT)%N then Some u' else after_gt u'
  end.

(** No tag is left: no ['<'] of the text is followed, however far, by a
    ['>']; that is, the pattern [<[^>]*>] matches nowhere. *)
Definition tag_free (s : ustring) : Prop :=
  forall a b, s = a ++ LT :: b -> GT ∉ b.

(** The text [cleanHtmlAndTruncate] measures. *)
Definition plain_text (html : ustring) : ustring := trim (strip_tags html).

Definition DOT : N := 46.

(** [`${year}.${month}.${day}`] as the [try] block computes it. *)
Definition formatted (dateString : ustring) : ustring :=
  match date_parse dateString with
  | None => lit "NaN.NaN.NaN"
  | Some time =>
      lit (pretty (local_year time)) ++ lit "."
      ++ padStart0 2 (lit (pretty (local_month time + 1))) ++ lit "."
      ++ padStart0 2 (lit (pretty (local_day time)))
  end.

(** Shapes of the three fields of a date. *)
Definition is_digit (c : N) : bool := ((48 <=? c) && (c <=? 57))%N.

Definition two_digits (s : ustring) : bool :=
  match s with
  | [a; b] => is_digit a && is_digit b
  | _ => false
  end.

Definition four_digits (s : ustring) : bool :=
  match s with
  | [a; b; c; d] => is_digit a && is_digit b && is_digit c && is_digit d
  | _ => false
  end.

(** 'YYYY.MM.DD' *)
Definition is_ymd (s : ustring) : bool :=
  match s with
  | [y1; y2; y3; y4; p; m1; m2; q; d1; d2] =>
      four_digits [y1; y2; y3; y4] && (p =? DOT)%N
      && two_digits [m1; m2] && (q =? DOT)%N && two_digits [d1; d2]
  | _ => false
  end.

(** What the record built from one feed item holds. *)
Definition summarises (item : RssItem) (post : PostSummary) : Prop :=
  title post = or_default (item_title item) no_title
  /\ link post = or_default (item_link item) (lit "#")
  /\ source post = lit "tistory"
  /\ description post
     = (let text := plain_text (or_default (item_description item) []) in
        if (length text <=? 150)%nat then text
        else trim (take 150 text) ++ lit "...")
  /\ tag_free (description post)
  /\ (length (description post) <= 153)%nat
  /\ tags post = match item_categories item with
                 | [] => [lit "Blog"]
                 | categories => take 3 categories
                 end
  /\ (length (tags post) <= 3)%nat
  /\ (forall time,
        date_parse (or_default (item_pubDate item) []) = Some time ->
        date post
        = lit (pretty (local_year time)) ++ lit "."
          ++ padStart0 2 (lit (pretty (local_month time + 1))) ++ lit "."
          ++ padStart0 2 (lit (pretty (local_day time)))
        /\ (1000 <= local_year time <= 9999 -> is_ymd (date post) = true)).

End FeedVocabulary.

(** A host for examples: every non-empty string is read as the epoch,
    in UTC; the empty string is an Invalid Date, as in every host. *)
Module EpochHost.

Definition parse (s : BlogManager.ustring) : option Z :=
  match s with
  | [] => None
  | _ => Some 0
  end.
Definition year (time : Z) : Z := 1970.
Definition month (time : Z) : Z := 0.
Definition day (time : Z) : Z := 1.

Definition parseRssXml := BlogManager.parseRssXml parse year month day.

(** An item without [<pubDate>], and one whose [<title>] is empty. *)
Definition undated : BlogManager.RssItem :=
  BlogManager.mkItem (Some (BlogManager.lit "Post"))
                     (Some (BlogManager.lit "https://arex.tistory.com/1"))
                     (Some (BlogManager.lit "<p>text</p>")) None [].

Definition untitled : BlogManager.RssItem :=
  BlogManager.mkItem (Some [])
                     (Some (BlogManager.lit "https://arex.tistory.com/2"))
                     (Some (BlogManager.lit "a <b>bold</b> claim"))
                     (Some (BlogManager.lit "Thu, 01 Jan 1970 00:00:00 GMT"))
                     [BlogManager.lit "dev"; BlogManager.lit "web";
                      BlogManager.lit "js"; BlogManager.lit "misc"].

End EpochHost.

(** ** Vocabulary of the further properties *)

(** A page reload: a new StateManager over the storage the page left. *)
Definition reload (w : World) : World := StateManager.constructor (localStorage w).

(** The subscribers registered for a key, in registry order. *)
Definition registered (w : World) (key : string) : list Callback :=
  default [] (subscribers w !! key).

(** No key of the registry is bound to an empty list. *)
Definition registry_ok (w : World) : Prop :=
  forall key, subscribers w !! key <> Some [].

(** Every state the operations lead to from the constructor. *)
Inductive page_state (storage : gmap string string) : World -> Prop :=
  | page_start : page_state storage (StateManager.constructor storage)
  | page_step w op : page_state storage w -> page_state storage (exec (run op) w).

(** How many times the callback [id] occurs in a list of subscribers. *)
Definition times_registered (id : nat) (callbacks : list Callback) : nat :=
  length (List.filter (fun c => Nat.eqb (cb_id c) id) callbacks).

(** The effects a run from [w] to [w'] appended. *)
Definition new_effects (w w' : World) : list Effect :=
  drop (length (trace w)) (trace w').

(** The paths requested through [fetch], in order. *)
Definition fetched (es : list Effect) : list string :=
  omap (fun e => match e with
                 | Fetch path => Some path
                 | _ => None
                 end) es.

(** The events emitted, by name, in order. *)
Definition emitted (es : list Effect) : list string :=
  omap (fun e => match e with
                 | Emit event _ => Some event
                 | _ => None
                 end) es.

(** A candidate path answers with an OK status. *)
Definition answers_ok (fetch : string -> I18nManager.FetchResult) (path : string) : bool :=
  match fetch path with
  | I18nManager.Responded r => I18nManager.ok r
  | I18nManager.Rejected _ => false
  end.

(** The candidates up to and including the first that answers OK. *)
Fixpoint attempted (fetch : string -> I18nManager.FetchResult) (paths : list string)
    : list string :=
  match paths with
  | [] => []
  | path :: rest =>
      path :: (if answers_ok fetch path then [] else attempted fetch rest)
  end.

(** The bundle a load that runs installs: the payload of the first OK
    response when the validation accepts it, the fallback bundle
    otherwise. *)
Definition loaded_bundle (fetch : string -> I18nManager.FetchResult) (lang : string)
    (w : World) : JsValue :=
  match first_ok fetch (I18nManager.possiblePaths lang) with
  | Some r =>
      match I18nManager.json r with
      | Some data => if acceptable data then data else fallback_for w
      | None => fallback_for w
      end
  | None => fallback_for w
  end.

(** The first OK response carries a payload the validation accepts. *)
Definition load_succeeds (fetch : string -> I18nManager.FetchResult) (lang : string) : bool :=
  match first_ok fetch (I18nManager.possiblePaths lang) with
  | Some r =>
      match I18nManager.json r with
      | Some data => acceptable data
      | None => false
      end
  | None => false
  end.

(** What identifies a post for [arePostsEqual]. *)
Definition post_key (post : BlogManager.PostSummary)
    : BlogManager.ustring * BlogManager.ustring :=
  (BlogManager.title post, BlogManager.date post).

Definition starts_with_space (s : BlogManager.ustring) : bool :=
  match s with
  | c :: _ => BlogManager.is_space c
  | [] => false
  end.

Definition ends_with_space (s : BlogManager.ustring) : bool :=
  starts_with_space (rev s).

(** What of a feed item reaches the title and the date of its summary. *)
Definition item_key (item : BlogManager.RssItem)
    : option BlogManager.ustring * option BlogManager.ustring :=
  (BlogManager.item_title item, BlogManager.item_pubDate item).

(** A codec for one cache entry, the empty list of posts stored at time
    1000: what [JSON.stringify] and [JSON.parse] do on that entry. *)
Definition empty_cache_stringify (posts : list BlogManager.PostSummary) (timestamp : Z) : string :=
  "{data:[],timestamp:1000}".

Definition empty_cache_parse (text : string) : option BlogManager.Envelope :=
  if String.eqb text "{data:[],timestamp:1000}"
  then Some (BlogManager.mkEnvelope (BlogManager.CachedPosts []) (BlogManager.Int 1000))
  else None.

Definition empty_cache_stored : World :=
  exec (BlogManager.setCachedData empty_cache_stringify [] 1000) (StateManager.fresh ∅).

(* ===================================================================== *)
(** * Properties: worlds and traces *)
(* ===================================================================== *)

Lemma logs_nil w : logs [] w = w.
Proof. destruct w; unfold logs; simpl. by rewrite app_nil_r. Qed.

Lemma logs_logs es1 es2 w : logs es2 (logs es1 w) = logs (es1 ++ es2) w.
Proof. unfold logs; simpl. by rewrite app_assoc. Qed.

Lemma log_logs e es w : log e (logs es w) = logs (es ++ [e]) w.
Proof. apply logs_logs. Qed.

Lemma logs_with_state f es w : logs es (with_state f w) = with_state f (logs es w).
Proof. reflexivity. Qed.

Lemma logs_with_localStorage f es w :
  logs es (with_localStorage f w) = with_localStorage f (logs es w).
Proof. reflexivity. Qed.

Lemma notify_each key value oldValue callbacks w :
  forEach callbacks (fun callback =>
    try_catch (StateManager.call callback value oldValue)
      (fun error => console_error (StateManager.subscriber_error_message key) error)) w
  = (Returned tt, logs (notifications key value oldValue callbacks) w).
Proof.
  revert w. induction callbacks as [|cb rest IH]; intros w.
  - simpl. unfold ret, notifications. simpl. by rewrite logs_nil.
  - simpl. unfold bind at 1. unfold try_catch, StateManager.call, bind, effect, modify.
    unfold notifications. simpl. unfold notification at 1.
    destruct (cb_run cb value oldValue) as [e|]; simpl.
    + unfold throw, console_error, effect, modify. rewrite IH.
      unfold log. by rewrite !logs_logs.
    + unfold ret. rewrite IH. unfold log. by rewrite !logs_logs.
Qed.

Lemma notifySubscribers_run key value oldValue w :
  StateManager.notifySubscribers key value oldValue w
  = (Returned tt,
     logs (notifications key value oldValue (default [] (subscribers w !! key))) w).
Proof.
  unfold StateManager.notifySubscribers, bind, gets.
  destruct (subscribers w !! key) as [callbacks|]; simpl.
  - apply notify_each.
  - unfold ret, notifications. simpl. by rewrite logs_nil.
Qed.



Lemma warnings_app es1 es2 :
  warnings (es1 ++ es2) = (warnings es1 ++ warnings es2)%list.
Proof. apply omap_app. Qed.

Lemma notifications_cons key value oldValue cb rest :
  notifications key value oldValue (cb :: rest)
  = (notification key value oldValue cb ++ notifications key value oldValue rest)%list.
Proof. reflexivity. Qed.



Lemma warnings_notifications key value oldValue callbacks :
  warnings (notifications key value oldValue callbacks) = [].
Proof.
  induction callbacks as [|cb rest IH]; [done|].
  rewrite notifications_cons, warnings_app, IH. unfold notification.
  by destruct (cb_run cb value oldValue).
Qed.


(* ===================================================================== *)
(** * Properties: StateManager *)
(* ===================================================================== *)

Lemma storage_key_spec key sk :
  storage_key key = Some sk <->
  (key = "theme" /\ sk = "portfolio-theme") \/ (key = "language" /\ sk = "portfolio-lang").
Proof.
  unfold storage_key. split.
  - intros Hk. repeat case_decide; simplify_eq; auto.
  - intros [[-> ->]|[-> ->]]; reflexivity.
Qed.

Lemma persistState_run key value w :
  StateManager.persistState key value w
  = (Returned tt,
     logs (persist_effects key value) (with_localStorage (persist_storage key value) w)).
Proof.
  unfold StateManager.persistState, persist_effects, persist_storage, storage_key.
  destruct (String.eqb_spec key "theme") as [->|Hth].
  - by rewrite decide_True.
  - rewrite (decide_False _ _ Hth).
    destruct (String.eqb_spec key "language") as [->|Hlang].
    + by rewrite decide_True.
    + rewrite (decide_False _ _ Hlang). unfold ret.
      rewrite logs_nil. by destruct w.
Qed.

Lemma setState_run key value w :
  StateManager.setState key value w
  = (Returned tt,
     logs (setState_effects key value w)
       (with_localStorage (persist_storage key value)
          (with_state (insert key value) w))).
Proof.
  unfold StateManager.setState, setState_effects.
  unfold bind at 1. unfold StateManager.read_state at 1, gets.
  unfold bind at 1. unfold StateManager.write_state, bind, modify, effect, modify.
  rewrite persistState_run, notifySubscribers_run.
  unfold emit, effect, modify, log. simpl.
  rewrite <- logs_with_localStorage, !logs_logs. simpl.
  by rewrite <- ?app_assoc.
Qed.



(** The registry of a key after [subscribe] and [unsubscribe]: a new
    subscriber goes last, and removing one keeps the others in order. *)
Lemma subscribe_registry key callback w :
  default [] (subscribers (exec (StateManager.subscribe key callback) w) !! key)
  = (default [] (subscribers w !! key) ++ [callback])%list.
Proof.
  unfold exec, StateManager.subscribe, modify. cbn [snd subscribers with_subscribers].
  by rewrite lookup_insert_eq.
Qed.

Lemma remove_first_sublist id callbacks :
  sublist (StateManager.remove_first id callbacks) callbacks.
Proof.
  induction callbacks as [|c rest IH]; [constructor|].
  cbn [StateManager.remove_first]. destruct (Nat.eqb (cb_id c) id).
  - by apply sublist_cons.
  - by apply sublist_skip.
Qed.

Lemma unsubscribe_registry key callback w :
  default [] (subscribers (exec (StateManager.unsubscribe key callback) w) !! key)
  = StateManager.remove_first (cb_id callback) (default [] (subscribers w !! key)).
Proof.
  unfold exec, StateManager.unsubscribe, modify. cbn [snd subscribers with_subscribers].
  destruct (subscribers w !! key) as [callbacks|] eqn:Hsubs; cbn [default id].
  - destruct (StateManager.remove_first (cb_id callback) callbacks) as [|c rest].
    + by rewrite lookup_delete_eq.
    + by rewrite lookup_insert_eq.
  - by rewrite Hsubs.
Qed.

Lemma unsubscribe_keeps_order key callback w :
  sublist (default [] (subscribers (exec (StateManager.unsubscribe key callback) w) !! key))
          (default [] (subscribers w !! key)).
Proof. rewrite unsubscribe_registry. apply remove_first_sublist. Qed.

(* ===================================================================== *)
(** * Properties: ThemeManager *)
(* ===================================================================== *)

Lemma is_string_true v lit : is_string v lit = true <-> v = JStr lit.
Proof.
  destruct v; simpl; try (split; [discriminate | congruence]).
  split.
  - intros H. apply String.eqb_eq in H. by subst.
  - intros [= ->]. apply String.eqb_refl.
Qed.

Lemma getState_theme w :
  StateManager.getState "theme" w = (Returned (default JUndefined (state w !! "theme")), w).
Proof. reflexivity. Qed.

Lemma applied_theme_valid theme :
  applied_theme theme = JStr "light" \/ applied_theme theme = JStr "dark".
Proof.
  unfold applied_theme.
  destruct (is_string theme "light") eqn:Hl; simpl.
  - left. by apply is_string_true.
  - destruct (is_string theme "dark") eqn:Hd; [|by left].
    right. by apply is_string_true.
Qed.

Lemma setTheme_run theme w :
  ThemeManager.setTheme theme w
  = StateManager.setState "theme" (applied_theme theme)
      (if is_string theme "light" || is_string theme "dark" then w
       else log (ConsoleWarn (ThemeManager.invalid_theme_message theme)) w).
Proof.
  unfold ThemeManager.setTheme, applied_theme.
  destruct (is_string theme "light"); simpl; [done|].
  destruct (is_string theme "dark"); simpl; done.
Qed.

Lemma setTheme_state theme w :
  state (exec (ThemeManager.setTheme theme) w)
  = <["theme" := applied_theme theme]> (state w).
Proof.
  unfold exec. rewrite setTheme_run, setState_run. simpl.
  by destruct (is_string theme "light" || is_string theme "dark").
Qed.

Lemma toggleTheme_run w :
  ThemeManager.toggleTheme w
  = ThemeManager.setTheme
      (if is_string (default JUndefined (state w !! "theme")) "dark"
       then JStr "light" else JStr "dark") w.
Proof. reflexivity. Qed.

(** C4. [setTheme(theme)] returns normally; afterwards [getCurrentTheme()]
    answers the applied theme and storage holds it under 'portfolio-theme'.
    The applied theme is the input itself when the input is 'light' or
    'dark' (and no warning is logged); for any other input it is 'light',
    and exactly one warning naming the rejected input is logged. *)
Theorem setTheme_sets_and_persists theme w :
  let valid := is_string theme "light" || is_string theme "dark" in
  let applied := if valid then theme else JStr "light" in
  let w' := exec (ThemeManager.setTheme theme) w in
  outcome (ThemeManager.setTheme theme) w = Returned tt
  /\ outcome ThemeManager.getCurrentTheme w' = Returned applied
  /\ localStorage w' !! "portfolio-theme" = Some (to_string applied)
  /\ (applied = JStr "light" \/ applied = JStr "dark")
  /\ warnings (drop (length (trace w)) (trace w'))
     = (if valid then [] else [ThemeManager.invalid_theme_message theme]).
Proof.
  intros valid applied w'.
  assert (Happ : applied = applied_theme theme) by reflexivity.
  subst w'. unfold exec, outcome. rewrite setTheme_run, setState_run.
  fold valid. rewrite <- Happ. simpl.
  split; [done|]. split.
  { by rewrite lookup_insert_eq. }
  split.
  { unfold persist_storage. simpl. by rewrite lookup_insert_eq. }
  split.
  { rewrite Happ. apply applied_theme_valid. }
  unfold setState_effects, persist_effects. simpl.
  destruct valid; simpl.
  - rewrite drop_app_length. simpl.
    by rewrite warnings_app, warnings_notifications.
  - rewrite <- app_assoc, drop_app_length. simpl.
    by rewrite warnings_app, warnings_notifications.
Qed.

Lemma toggleTheme_state w :
  state (exec ThemeManager.toggleTheme w)
  = <["theme" := if is_string (default JUndefined (state w !! "theme")) "dark"
                 then JStr "light" else JStr "dark"]> (state w).
Proof.
  unfold exec. rewrite toggleTheme_run. fold (exec (ThemeManager.setTheme
    (if is_string (default JUndefined (state w !! "theme")) "dark"
     then JStr "light" else JStr "dark")) w).
  rewrite setTheme_state. f_equal.
  by destruct (is_string (default JUndefined (state w !! "theme")) "dark").
Qed.

Lemma toggleTheme_returns w : outcome ThemeManager.toggleTheme w = Returned tt.
Proof. unfold outcome. by rewrite toggleTheme_run, setTheme_run, setState_run. Qed.

Lemma toggle_twice_exec w :
  exec toggle_twice w = exec ThemeManager.toggleTheme (exec ThemeManager.toggleTheme w).
Proof.
  unfold toggle_twice, exec, bind.
  pose proof (toggleTheme_returns w) as Hret. unfold outcome in Hret.
  destruct (ThemeManager.toggleTheme w) as [r w1]. simpl in *. by subst r.
Qed.

Lemma loadPersistedState_run w :
  StateManager.loadPersistedState w
  = (Returned tt,
     logs (restore_effects "theme" (saved (localStorage w) "portfolio-theme")
           ++ restore_effects "language" (saved (localStorage w) "portfolio-lang"))
       (with_state (fun st =>
          restore "language" (saved (localStorage w) "portfolio-lang")
            (restore "theme" (saved (localStorage w) "portfolio-theme") st)) w)).
Proof.
  unfold StateManager.loadPersistedState, bind, getItem, gets, saved.
  destruct (localStorage w !! "portfolio-theme") as [th|];
    destruct (localStorage w !! "portfolio-lang") as [la|];
    try destruct (String.eqb th ""); try destruct (String.eqb la "");
    unfold StateManager.write_state, bind, modify, effect, modify, ret, log;
    cbn [restore restore_effects app fst snd];
    rewrite <- ?logs_with_state, ?logs_logs; try reflexivity;
    try (rewrite logs_nil; by destruct w).
Qed.

Lemma constructor_state_lookup storage :
  state (StateManager.constructor storage)
  = restore "language" (saved storage "portfolio-lang")
      (restore "theme" (saved storage "portfolio-theme")
         (StateManager.object_of StateManager.constructor_state)).
Proof.
  unfold StateManager.constructor, StateManager.init, exec, bind.
  by rewrite loadPersistedState_run.
Qed.

Lemma constructor_state_theme :
  StateManager.object_of StateManager.constructor_state !! "theme" = Some (JStr "light").
Proof. reflexivity. Qed.

Lemma saved_empty key : saved ∅ key = None.
Proof. unfold saved. by rewrite lookup_empty. Qed.

Lemma saved_blue_theme :
  saved {["portfolio-theme" := "blue"]} "portfolio-theme" = Some "blue"
  /\ saved {["portfolio-theme" := "blue"]} "portfolio-lang" = None.
Proof.
  unfold saved. rewrite lookup_singleton_eq, lookup_singleton_ne; [|done].
  by split.
Qed.

(** C5, as stated, fails: from a state whose theme is neither name (here
    the one the constructor builds when storage holds 'blue'), two toggles
    end in 'light'. *)
Lemma toggleTheme_twice_counterexample :
  outcome ThemeManager.getCurrentTheme
    (exec toggle_twice (StateManager.constructor {["portfolio-theme" := "blue"]}))
  <> outcome ThemeManager.getCurrentTheme
       (StateManager.constructor {["portfolio-theme" := "blue"]}).
Proof.
  rewrite toggle_twice_exec. unfold outcome, ThemeManager.getCurrentTheme.
  rewrite !getState_theme. cbn [fst].
  rewrite !toggleTheme_state, !lookup_insert_eq, constructor_state_lookup.
  destruct saved_blue_theme as [-> ->]. cbn [restore].
  rewrite lookup_insert_eq. cbn. discriminate.
Qed.

(** C5 (amended). From every state whose theme is 'light' or 'dark', two
    consecutive calls of [toggleTheme] bring the theme back to the value it
    had before the first call. *)
Theorem toggleTheme_twice_restores w :
  theme_valid w ->
  outcome ThemeManager.getCurrentTheme (exec toggle_twice w)
  = outcome ThemeManager.getCurrentTheme w.
Proof.
  intros Hvalid. rewrite toggle_twice_exec.
  unfold outcome, ThemeManager.getCurrentTheme. rewrite !getState_theme. simpl.
  rewrite !toggleTheme_state, !lookup_insert_eq. simpl.
  by destruct Hvalid as [-> | ->].
Qed.

Lemma toggleTheme_twice_restores_witness :
  theme_valid (StateManager.constructor ∅)
  /\ outcome ThemeManager.getCurrentTheme (exec toggle_twice (StateManager.constructor ∅))
     = outcome ThemeManager.getCurrentTheme (StateManager.constructor ∅).
Proof.
  assert (H : theme_valid (StateManager.constructor ∅)).
  { left. rewrite constructor_state_lookup, !saved_empty. reflexivity. }
  split; [exact H | exact (toggleTheme_twice_restores _ H)].
Defined.

(* ===================================================================== *)
(** * Properties: reset *)
(* ===================================================================== *)

Lemma reset_state_lookup :
  Forall (fun field : string * JsValue =>
            StateManager.object_of StateManager.reset_state !! fst field = Some (snd field))
         StateManager.reset_state.
Proof. repeat constructor. Qed.

Lemma reset_notify_each (fields : list (string * JsValue)) w :
  Forall (fun field => state w !! fst field = Some (snd field)) fields ->
  forEach (map fst fields) (fun key =>
    let* value := StateManager.read_state key in
    StateManager.notifySubscribers key value JUndefined) w
  = (Returned tt,
     logs (concat (map (fun field : string * JsValue =>
                          notifications (fst field) (snd field) JUndefined
                            (default [] (subscribers w !! fst field))) fields)) w).
Proof.
  revert w. induction fields as [|[k v] rest IH]; intros w Hall.
  - simpl. unfold ret. by rewrite logs_nil.
  - inversion Hall as [|? ? Hk Hrest]; subst. simpl in Hk.
    cbn [map fst forEach]. unfold bind at 1. unfold bind at 1.
    unfold StateManager.read_state at 1, gets. rewrite Hk. cbn [default].
    rewrite notifySubscribers_run. rewrite IH by exact Hrest.
    cbn [map concat fst snd]. by rewrite logs_logs.
Qed.

Lemma reset_run w :
  StateManager.reset w
  = (Returned tt,
     logs ([StateReplace StateManager.reset_state;
            StorageRemove "portfolio-theme"; StorageRemove "portfolio-lang"]
           ++ reset_notifications w
           ++ [Emit "state:reset" NoPayload])
       (with_localStorage (fun s => delete "portfolio-lang" (delete "portfolio-theme" s))
          (with_state (fun _ => StateManager.object_of StateManager.reset_state) w))).
Proof.
  unfold StateManager.reset.
  unfold bind at 1, modify at 1. unfold bind at 1, effect at 1, modify at 1.
  unfold bind at 1, removeItem at 1, bind at 1, modify at 1, effect at 1, modify at 1.
  unfold bind at 1, removeItem at 1, bind at 1, modify at 1, effect at 1, modify at 1.
  unfold bind at 1.
  rewrite (reset_notify_each StateManager.reset_state) by apply reset_state_lookup.
  unfold emit, effect, modify, log, reset_notifications.
  cbn [subscribers logs with_localStorage with_state].
  unfold logs at 1 2. cbn [trace state subscribers localStorage translations isLoading].
  unfold logs, with_localStorage, with_state.
  cbn [trace state subscribers localStorage translations isLoading].
  by rewrite <- !app_assoc.
Qed.

(** C8: [reset()] does not restore the construction defaults. From every
    world it returns normally, the state becomes the literal of [reset],
    whose [language] is 'en', while the literal of the constructor has
    'ko'; every other field agrees with the constructor's. Both storage
    entries are removed, and the subscribers of the five fields are
    notified, in field order, with the restored value and [undefined]. *)
Theorem reset_language_differs_from_constructor w :
  let w' := exec StateManager.reset w in
  outcome StateManager.reset w = Returned tt
  /\ state w' = StateManager.object_of StateManager.reset_state
  /\ state w' !! "language" = Some (JStr "en")
  /\ StateManager.object_of StateManager.constructor_state !! "language" = Some (JStr "ko")
  /\ delete "language" (state w')
     = delete "language" (StateManager.object_of StateManager.constructor_state)
  /\ localStorage w' !! "portfolio-theme" = None
  /\ localStorage w' !! "portfolio-lang" = None
  /\ trace w' =
       (trace w
        ++ [StateReplace StateManager.reset_state;
            StorageRemove "portfolio-theme"; StorageRemove "portfolio-lang"]
        ++ reset_notifications w
        ++ [Emit "state:reset" NoPayload])%list.
Proof.
  intros w'. subst w'. unfold exec, outcome. rewrite reset_run.
  cbn [fst snd logs with_localStorage with_state state localStorage trace].
  split; [done|]. split; [done|]. split; [reflexivity|]. split; [reflexivity|].
  split; [reflexivity|]. split.
  { rewrite lookup_delete_ne by done. apply lookup_delete_eq. }
  split; [apply lookup_delete_eq | done].
Qed.

(* ===================================================================== *)
(** * Properties: I18nManager.loadTranslations *)
(* ===================================================================== *)

Section LoadTranslations.

Import I18nManager.

Variable fetch : string -> FetchResult.

Lemma first_ok_is_ok paths r : first_ok fetch paths = Some r -> ok r = true.
Proof.
  induction paths as [|path rest IH]; simpl; [discriminate|].
  destruct (fetch path) as [e|r']; [exact IH|].
  destruct (ok r') eqn:Hok; [|exact IH].
  intros [= <-]. exact Hok.
Qed.

Lemma try_paths_run paths response lastError w :
  exists response' lastError' es,
    try_paths fetch paths response lastError w
    = (Returned (response', lastError'), logs es w)
    /\ match first_ok fetch paths with
       | Some r => response' = Some r
       | None => response_ok response = false -> response_ok response' = false
       end.
Proof.
  revert response lastError w.
  induction paths as [|path rest IH]; intros response lastError w.
  - exists response, lastError, []. simpl. unfold ret. by rewrite logs_nil.
  - cbn [try_paths first_ok]. unfold bind, effect, modify.
    destruct (fetch path) as [e|r].
    + destruct (IH response (Some e) (log (Fetch path) w)) as (r' & le' & es & Hrun & Hres).
      exists r', le', (Fetch path :: es). rewrite Hrun. unfold log.
      by rewrite logs_logs.
    + destruct (ok r) eqn:Hok.
      * exists (Some r), lastError, [Fetch path]. by unfold ret.
      * destruct (IH (Some r)
                    (Some (Error ("HTTP " ++ pretty (status r) ++ " for " ++ path)))
                    (log (Fetch path) w)) as (r' & le' & es & Hrun & Hres).
        exists r', le', (Fetch path :: es). rewrite Hrun. unfold log.
        rewrite logs_logs. split; [done|].
        destruct (first_ok fetch rest); [done|]. intros _. by apply Hres.
Qed.


Lemma getFallbackTranslations_run w :
  getFallbackTranslations w = (Returned (fallback_for w), w).
Proof.
  unfold getFallbackTranslations, fallback_for, bind, getCurrentLanguage.
  change (StateManager.getState "language" w)
    with (Returned (default JUndefined (state w !! "language")), w).
  cbv beta iota.
  by destruct (is_string (default JUndefined (state w !! "language")) "ko").
Qed.


(** The [catch] block always returns: it installs the fallback bundle. *)
Lemma recover_run lang error w :
  exists w',
    recover lang error w = (Returned tt, w')
    /\ state w' = <["translations" := fallback_for w]> (state w)
    /\ translations w' = fallback_for w
    /\ isLoading w' = isLoading w
    /\ localStorage w' = localStorage w.
Proof.
  unfold recover. unfold bind at 1, console_error at 1, effect at 1, modify at 1.
  unfold bind at 1, console_warn at 1, effect at 1, modify at 1.
  unfold bind at 1. rewrite getFallbackTranslations_run.
  unfold bind at 1, modify at 1. unfold bind at 1. rewrite setState_run.
  unfold emit, effect, modify. eexists. split; [reflexivity|].
  unfold fallback_for. cbn. repeat split; reflexivity.
Qed.

End LoadTranslations.

Lemma loadTranslations_unfold fetch lang w :
  isLoading w = false ->
  I18nManager.loadTranslations fetch lang w
  = try_catch_finally
      (I18nManager.load fetch (default "en" lang))
      (I18nManager.recover (default "en" lang))
      (modify (with_isLoading false);; emit "i18n:loadingEnd" (Lang (default "en" lang)))
      (log (Emit "i18n:loadingStart" (Lang (default "en" lang))) (with_isLoading true w)).
Proof.
  intros Hidle. unfold I18nManager.loadTranslations.
  unfold bind at 1, gets. rewrite Hidle. reflexivity.
Qed.

(** [loadTranslations] always returns normally: whatever the network
    answers, the [catch] block absorbs the failure. *)
Lemma loadTranslations_returns fetch lang w :
  outcome (I18nManager.loadTranslations fetch lang) w = Returned tt.
Proof.
  unfold outcome. destruct (isLoading w) eqn:Hbusy.
  - unfold I18nManager.loadTranslations, bind, gets. by rewrite Hbusy.
  - rewrite loadTranslations_unfold by done.
    unfold try_catch_finally, try_catch.
    set (w1 := log _ _).
    destruct (I18nManager.load fetch (default "en" lang) w1) as [[[]|error] w2].
    + reflexivity.
    + destruct (recover_run (default "en" lang) error w2) as (w3 & -> & _).
      reflexivity.
Qed.




(* ===================================================================== *)
(** * Properties: I18nManager.t *)
(* ===================================================================== *)









(** An inherited member counts as present for [in]: the walk does not
    stop at it. *)
Example t_inherited_member :
  I18nManager.t_on (JObj []) "toString" (JStr "X") = JBuiltin (BuiltinFunction "toString")
  /\ I18nManager.t_on I18nManager.fallback_en "about.details.length" (JStr "X") = JNum 1
  /\ I18nManager.t_on I18nManager.fallback_en "about.details.0" (JStr "X")
     = JStr "Creating meaningful solutions with modern technologies.".
Proof. repeat split; reflexivity. Qed.

Example t_finds_leaf :
  I18nManager.t_on I18nManager.fallback_en "hero.line1" JUndefined = JStr "Hi, I'm"
  /\ I18nManager.t_on I18nManager.fallback_en "hero.greeting" JUndefined = JStr "hero.greeting"
  /\ I18nManager.t_on I18nManager.fallback_en "hero.line1.x" (JStr "X") = JStr "X"
  /\ I18nManager.t_on I18nManager.fallback_en "blog.posts.0" (JStr "X") = JStr "X".
Proof. repeat split; reflexivity. Qed.

(* ===================================================================== *)
(** * Properties: the theme invariant *)
(* ===================================================================== *)

Lemma load_state fetch lang w key :
  key <> "translations" ->
  state (exec (I18nManager.load fetch lang) w) !! key = state w !! key.
Proof.
  intros Hkey. unfold exec, I18nManager.load. unfold bind at 1.
  destruct (try_paths_run fetch (I18nManager.possiblePaths lang) None None w)
    as (response & lastError & es & -> & _).
  destruct response as [r|]; [|reflexivity].
  destruct (I18nManager.ok r); [|reflexivity].
  destruct (I18nManager.json r) as [data|]; [|reflexivity].
  destruct (negb (truthy data) || negb (String.eqb (typeof data) "object"));
    [reflexivity|].
  unfold bind at 1, modify at 1. unfold bind at 1. rewrite setState_run.
  unfold bind, console_log, emit, effect, modify. cbn [snd state logs log with_state
    with_localStorage with_translations].
  by rewrite lookup_insert_ne.
Qed.

Lemma loadTranslations_state fetch lang w key :
  key <> "translations" ->
  state (exec (I18nManager.loadTranslations fetch lang) w) !! key = state w !! key.
Proof.
  intros Hkey. destruct (isLoading w) eqn:Hbusy.
  - unfold exec, I18nManager.loadTranslations, bind, gets. by rewrite Hbusy.
  - unfold exec. rewrite loadTranslations_unfold by done.
    unfold try_catch_finally, try_catch.
    set (w1 := log _ _).
    pose proof (load_state fetch (default "en" lang) w1 key Hkey) as Hload.
    unfold exec in Hload.
    destruct (I18nManager.load fetch (default "en" lang) w1) as [[[]|error] w2];
      cbn [snd] in Hload.
    + unfold bind, modify, emit, effect, modify. cbn [snd]. exact Hload.
    + destruct (recover_run (default "en" lang) error w2) as (w3 & -> & Hstate & _).
      unfold bind, modify, emit, effect, modify. cbn [snd].
      change (state (log _ (with_isLoading false w3))) with (state w3).
      rewrite Hstate, lookup_insert_ne by done. exact Hload.
Qed.

Lemma run_returns op w : outcome (run op) w = Returned tt.
Proof.
  destruct op; cbn [run]; unfold outcome.
  - by rewrite setTheme_run, setState_run.
  - apply toggleTheme_returns.
  - by rewrite reset_run.
  - by rewrite setState_run.
  - reflexivity.
  - reflexivity.
  - apply loadTranslations_returns.
Qed.

Lemma run_preserves_theme op w :
  respects_theme op -> theme_valid w -> theme_valid (exec (run op) w).
Proof.
  intros Hop Hvalid. unfold theme_valid in *. destruct op; cbn [run].
  - rewrite setTheme_state, lookup_insert_eq.
    destruct (applied_theme_valid theme) as [-> | ->]; auto.
  - rewrite toggleTheme_state, lookup_insert_eq.
    destruct (is_string _ "dark"); auto.
  - unfold exec. rewrite reset_run. left. reflexivity.
  - unfold exec. rewrite setState_run.
    cbn [snd state logs with_state with_localStorage].
    destruct (decide (key = "theme")) as [->|Hne].
    + rewrite lookup_insert_eq.
      destruct Hop as [Hk | [-> | ->]]; [done | auto | auto].
    + by rewrite lookup_insert_ne.
  - exact Hvalid.
  - exact Hvalid.
  - by rewrite loadTranslations_state.
Qed.

Lemma constructor_theme_valid storage :
  storage_theme_ok storage -> theme_valid (StateManager.constructor storage).
Proof.
  intros Hok. unfold theme_valid. rewrite constructor_state_lookup.
  assert (Hlang : forall st : gmap string JsValue,
            restore "language" (saved storage "portfolio-lang") st !! "theme"
            = st !! "theme").
  { intros st. destruct (saved storage "portfolio-lang"); cbn [restore]; [|done].
    by rewrite lookup_insert_ne. }
  rewrite Hlang.
  destruct Hok as [-> | [-> | ->]]; cbn [restore];
    rewrite ?lookup_insert_eq; auto.
Qed.

(** C7, as stated, fails: a direct [setState('theme', 'blue')] stores
    'blue', and so does the constructor when storage holds 'blue'. *)
Lemma theme_invariant_counterexample :
  ~ theme_valid (exec (StateManager.setState "theme" (JStr "blue"))
                      (StateManager.constructor ∅))
  /\ ~ theme_valid (StateManager.constructor {["portfolio-theme" := "blue"]}).
Proof.
  unfold theme_valid. split.
  - unfold exec. rewrite setState_run.
    cbn [snd state logs with_state with_localStorage].
    rewrite lookup_insert_eq. intros [H | H]; discriminate H.
  - rewrite constructor_state_lookup.
    destruct saved_blue_theme as [-> ->]. cbn [restore].
    rewrite lookup_insert_eq. intros [H | H]; discriminate H.
Qed.

(** C7 (amended). Starting from a constructor whose persisted theme is
    missing, empty, 'light' or 'dark', the theme field is 'light' or 'dark'
    in every state reached through [setTheme], [toggleTheme], [reset],
    [subscribe], [unsubscribe], [loadTranslations] and through [setState]
    calls that target another key or write 'light' or 'dark'. *)
Theorem theme_invariant storage w :
  storage_theme_ok storage ->
  reachable storage w ->
  theme_valid w.
Proof.
  intros Hstorage Hreach.
  induction Hreach as [|w op _ IH Hop].
  - by apply constructor_theme_valid.
  - by apply run_preserves_theme.
Qed.

Lemma theme_invariant_witness :
  storage_theme_ok {["portfolio-theme" := "dark"]}
  /\ theme_valid
       (exec (run (SetTheme (JStr "blue")))
          (exec (run ToggleTheme)
             (StateManager.constructor {["portfolio-theme" := "dark"]}))).
Proof.
  assert (Hs : storage_theme_ok {["portfolio-theme" := "dark"]}).
  { right; right. unfold saved. by rewrite lookup_singleton_eq. }
  split; [exact Hs|].
  apply (theme_invariant {["portfolio-theme" := "dark"]}); [exact Hs|].
  apply reachable_step; [|exact I].
  apply reachable_step; [|exact I].
  apply reachable_start.
Defined.

(* ===================================================================== *)
(** * Properties: BlogManager *)
(* ===================================================================== *)

(** A code unit does not occur in a given text. *)
Ltac not_among :=
  let H := fresh "H" in
  vm_compute; intros H;
  repeat (apply elem_of_cons in H as [H|H]; [discriminate H|]);
  by apply not_elem_of_nil in H.

Section Feed.

Import BlogManager.
Local Open Scope list_scope.
Local Open Scope nat_scope.

Lemma strip_tags_lt rest :
  strip_tags (LT :: rest)
  = match after_gt rest with
    | Some u => strip_tags u
    | None => LT :: rest
    end.
Proof.
  cbn [strip_tags]. rewrite N.eqb_refl.
  assert (H : forall u,
    (fix close (u : ustring) : option ustring :=
       match u with
       | [] => None
       | d :: u' => if (d =? GT)%N then Some (strip_tags u') else close u'
       end) u = strip_tags <$> after_gt u).
  { induction u as [|d u IH]; [reflexivity|].
    cbn [after_gt]. destruct (d =? GT)%N; [reflexivity | exact IH]. }
  rewrite H. by destruct (after_gt rest).
Qed.

Lemma strip_tags_other c rest :
  c <> LT -> strip_tags (c :: rest) = c :: strip_tags rest.
Proof.
  intros Hc. cbn [strip_tags].
  by rewrite (proj2 (N.eqb_neq c LT) Hc).
Qed.

Lemma after_gt_split u u' :
  after_gt u = Some u' -> exists body, u = body ++ GT :: u' /\ GT ∉ body.
Proof.
  revert u'. induction u as [|d u IH]; intros u'; [discriminate|].
  cbn [after_gt]. destruct (N.eqb_spec d GT) as [->|Hd].
  - intros [= ->]. exists []. split; [reflexivity | apply not_elem_of_nil].
  - intros H. destruct (IH _ H) as (body & -> & Hbody).
    exists (d :: body). split; [reflexivity|].
    rewrite not_elem_of_cons. split; [congruence | exact Hbody].
Qed.

Lemma after_gt_none u : after_gt u = None -> GT ∉ u.
Proof.
  induction u as [|d u IH]; [intros _; apply not_elem_of_nil|].
  cbn [after_gt]. destruct (N.eqb_spec d GT) as [->|Hd]; [discriminate|].
  intros H. rewrite not_elem_of_cons. split; [congruence | by apply IH].
Qed.

Lemma after_gt_shorter u u' : after_gt u = Some u' -> length u' < length u.
Proof.
  intros H. destruct (after_gt_split _ _ H) as (body & -> & _).
  rewrite length_app. simpl. lia.
Qed.

Lemma tag_free_nil : tag_free [].
Proof. intros a b H. by destruct a. Qed.

Lemma tag_free_substring p m q : tag_free (p ++ m ++ q) -> tag_free m.
Proof.
  intros H a b ->. specialize (H (p ++ a) (b ++ q)).
  rewrite <- !app_assoc in H. specialize (H eq_refl).
  intros Hin. apply H. apply elem_of_app. by left.
Qed.

Lemma tag_free_cons c s : c <> LT -> tag_free s -> tag_free (c :: s).
Proof.
  intros Hc H a b Heq. destruct a as [|c' a].
  - simpl in Heq. congruence.
  - injection Heq as -> ->. by apply (H a b).
Qed.

Lemma tag_free_no_gt s : GT ∉ s -> tag_free s.
Proof.
  intros Hs a b ->. intros Hin. apply Hs.
  apply elem_of_app. right. apply elem_of_cons. by right.
Qed.

Lemma tag_free_app s t : tag_free s -> LT ∉ t -> GT ∉ t -> tag_free (s ++ t).
Proof.
  intros Hs Hlt Hgt a b Heq.
  apply app_eq_inv in Heq as [(k & Hs_eq & Hk) | (k & Ha & Hk)].
  - destruct k as [|c k].
    + simpl in Hk. exfalso. apply Hlt. rewrite <- Hk. apply elem_of_cons. by left.
    + injection Hk as <- ->. intros Hin. apply elem_of_app in Hin as [Hin | Hin].
      * by apply (Hs a k).
      * by apply Hgt.
  - exfalso. apply Hlt. rewrite Hk.
    apply elem_of_app. right. apply elem_of_cons. by left.
Qed.

Lemma strip_tags_tag_free s : tag_free (strip_tags s).
Proof.
  remember (length s) as n eqn:Hn. revert s Hn.
  induction n as [n IH] using lt_wf_ind. intros s Hn.
  destruct s as [|c rest]; [apply tag_free_nil|].
  destruct (N.eq_dec c LT) as [->|Hc].
  - rewrite strip_tags_lt. destruct (after_gt rest) as [u|] eqn:Hu.
    + apply (IH (length u)); [|reflexivity].
      apply after_gt_shorter in Hu. subst n. simpl. lia.
    + apply tag_free_no_gt. apply not_elem_of_cons.
      split; [discriminate | by apply after_gt_none].
  - rewrite strip_tags_other by done. apply tag_free_cons; [done|].
    apply (IH (length rest)); [subst n; simpl; lia | reflexivity].
Qed.

Lemma strip_tags_length s : length (strip_tags s) <= length s.
Proof.
  remember (length s) as n eqn:Hn. revert s Hn.
  induction n as [n IH] using lt_wf_ind. intros s Hn.
  destruct s as [|c rest]; [simpl; lia|].
  destruct (N.eq_dec c LT) as [->|Hc].
  - rewrite strip_tags_lt. destruct (after_gt rest) as [u|] eqn:Hu.
    + apply after_gt_shorter in Hu.
      pose proof (IH (length u) ltac:(subst n; simpl; lia) u eq_refl).
      subst n. simpl. lia.
    + subst n. lia.
  - rewrite strip_tags_other by done.
    pose proof (IH (length rest) ltac:(subst n; simpl; lia) rest eq_refl).
    subst n. simpl. lia.
Qed.

Lemma trim_start_suffix s : exists p, s = p ++ trim_start s.
Proof.
  induction s as [|c s [p IH]]; [by exists []|].
  cbn [trim_start]. destruct (is_space c).
  - exists (c :: p). simpl. by rewrite <- IH.
  - by exists [].
Qed.

Lemma trim_substring s : exists p q, s = p ++ trim s ++ q.
Proof.
  unfold trim.
  destruct (trim_start_suffix s) as [p Hp].
  destruct (trim_start_suffix (rev (trim_start s))) as [q Hq].
  exists p, (rev q).
  rewrite <- rev_app_distr, <- Hq, rev_involutive. exact Hp.
Qed.

Lemma trim_length s : length (trim s) <= length s.
Proof.
  destruct (trim_substring s) as (p & q & H).
  rewrite H at 2. rewrite !length_app. lia.
Qed.

Lemma tag_free_trim s : tag_free s -> tag_free (trim s).
Proof.
  destruct (trim_substring s) as (p & q & H). intros Hs.
  rewrite H in Hs. by apply tag_free_substring in Hs.
Qed.

Lemma tag_free_take n s : tag_free s -> tag_free (take n s).
Proof.
  intros Hs. rewrite <- (take_drop n s) in Hs.
  apply (tag_free_substring [] (take n s) (drop n s)). exact Hs.
Qed.

Lemma cleanHtmlAndTruncate_spec html maxLength :
  cleanHtmlAndTruncate html maxLength
  = (if length (plain_text html) <=? maxLength then plain_text html
     else trim (take maxLength (plain_text html)) ++ lit "...")
  /\ tag_free (cleanHtmlAndTruncate html maxLength)
  /\ length (cleanHtmlAndTruncate html maxLength) <= maxLength + 3.
Proof.
  split; [reflexivity|]. unfold cleanHtmlAndTruncate. fold (plain_text html).
  assert (Hfree : tag_free (plain_text html)).
  { apply tag_free_trim, strip_tags_tag_free. }
  destruct (Nat.leb_spec (length (plain_text html)) maxLength) as [Hle|Hgt].
  - split; [exact Hfree | lia].
  - split.
    + apply tag_free_app.
      * apply tag_free_trim. unfold substring0. by apply tag_free_take.
      * not_among.
      * not_among.
    + rewrite length_app. pose proof (trim_length (substring0 maxLength (plain_text html))).
      unfold substring0 in *. rewrite length_take in H.
      change (length (lit "...")) with 3. lia.
Qed.

End Feed.

Section FeedDates.

Import BlogManager.
Local Open Scope list_scope.

Variable date_parse : ustring -> option Z.
Variable local_year local_month local_day : Z -> Z.

Abbreviation formatDate_try := (formatDate_try date_parse local_year local_month local_day).
Abbreviation formatDate := (formatDate date_parse local_year local_month local_day).
Abbreviation parseItem := (parseItem date_parse local_year local_month local_day).
Abbreviation parseRssXml := (parseRssXml date_parse local_year local_month local_day).
Abbreviation formatted := (formatted date_parse local_year local_month local_day).
Abbreviation summarises := (summarises date_parse local_year local_month local_day).



Lemma formatDate_try_returns dateString :
  formatDate_try dateString = Returned (formatted dateString).
Proof.
  unfold BlogManager.formatDate_try, formatted, new_Date, getFullYear, getMonth,
    getDate, getter, obind.
  by destruct (date_parse dateString).
Qed.

Lemma formatDate_formatted dateString :
  formatDate dateString = formatted dateString.
Proof. unfold BlogManager.formatDate. by rewrite formatDate_try_returns. Qed.


Lemma pad_two_digits z :
  0 <= z <= 99 -> two_digits (padStart0 2 (lit (pretty z))) = true.
Proof.
  intros Hz.
  assert (Hall : forallb (fun n : nat =>
                   two_digits (padStart0 2 (lit (pretty (Z.of_nat n)))))
                   (seq 0 100) = true) by (vm_compute; reflexivity).
  rewrite forallb_forall in Hall.
  specialize (Hall (Z.to_nat z)). rewrite Z2Nat.id in Hall by lia.
  apply Hall. apply in_seq. lia.
Qed.

Lemma year_four_digits z :
  1000 <= z <= 9999 -> four_digits (lit (pretty z)) = true.
Proof.
  intros Hz.
  assert (Hall : forallb (fun n : nat => four_digits (lit (pretty (Z.of_nat n))))
                   (seq (Z.to_nat 1000) (Z.to_nat 9000)) = true)
    by (vm_compute; reflexivity).
  rewrite forallb_forall in Hall.
  specialize (Hall (Z.to_nat z)). rewrite Z2Nat.id in Hall by lia.
  apply Hall. apply in_seq. lia.
Qed.

Lemma is_ymd_fields y m d :
  four_digits y = true -> two_digits m = true -> two_digits d = true ->
  is_ymd (y ++ lit "." ++ m ++ lit "." ++ d) = true.
Proof.
  intros Hy Hm Hd.
  destruct y as [|y1 [|y2 [|y3 [|y4 [|? ?]]]]]; try discriminate.
  destruct m as [|m1 [|m2 [|? ?]]]; try discriminate.
  destruct d as [|d1 [|d2 [|? ?]]]; try discriminate.
  change (is_ymd [y1; y2; y3; y4; DOT; m1; m2; DOT; d1; d2] = true).
  unfold is_ymd. rewrite Hy, Hm, Hd. reflexivity.
Qed.

(** The getters of a valid Date answer a month in 0..11 and a day of the
    month in 1..31. *)
Hypothesis month_range : forall time, 0 <= local_month time <= 11.
Hypothesis day_range : forall time, 1 <= local_day time <= 31.

Lemma formatted_is_ymd dateString time :
  date_parse dateString = Some time ->
  1000 <= local_year time <= 9999 ->
  is_ymd (formatted dateString) = true.
Proof.
  intros Hparse Hyear. unfold formatted. rewrite Hparse.
  apply is_ymd_fields.
  - by apply year_four_digits.
  - apply pad_two_digits. pose proof (month_range time). lia.
  - apply pad_two_digits. pose proof (day_range time). lia.
Qed.

Lemma extractTags_text categories :
  extractTags (map CategoryText categories)
  = match categories with
    | [] => [lit "Blog"]
    | _ => take 3 categories
    end.
Proof.
  destruct categories as [|c1 [|c2 [|c3 rest]]]; reflexivity.
Qed.

Lemma parseItem_summarises item : summarises item (parseItem item).
Proof.
  unfold summarises, BlogManager.parseItem.
  cbn [title link source description tags date].
  destruct (cleanHtmlAndTruncate_spec (or_default (item_description item) []) 150)
    as (Hclean & Hfree & Hlen).
  pose proof (formatDate_formatted (or_default (item_pubDate item) [])) as Hdate.
  split; [reflexivity|]. split; [reflexivity|]. split; [reflexivity|].
  split; [exact Hclean|]. split; [exact Hfree|]. split; [exact Hlen|].
  split; [rewrite extractTags_text; by destruct (item_categories item)|]. split.
  { rewrite extractTags_text. destruct (item_categories item); [simpl; lia|].
    rewrite length_take. lia. }
  intros time Hparse. rewrite Hdate. split.
  - unfold formatted. by rewrite Hparse.
  - intros Hyear. by apply (formatted_is_ymd _ time).
Qed.

(** C9 (amended). [parseRssXml] turns the first six items of the feed, in
    order, into one record each. A record holds the item's title and link
    text (or '제목 없음' and '#' when the element is missing or empty), the
    source tag 'tistory', the description with every tag removed, trimmed
    and cut to 150 code units with '...' appended exactly when it was
    longer, the first three categories as tags (the single tag 'Blog' when
    there is none), and, when the publication date is a valid date, the
    date made of its year, two-digit month and two-digit day joined by
    dots, which has the form 'YYYY.MM.DD' when the year has four digits. *)
Theorem parseRssXml_summarises items :
  Forall2 summarises (take 6 items) (parseRssXml items)
  /\ length (parseRssXml items) = Nat.min (length items) 6.
Proof.
  unfold BlogManager.parseRssXml, maxPosts.
  assert (Htake : take (Nat.min (length items) 6) items = take 6 items).
  { destruct (Nat.le_ge_cases (length items) 6) as [Hle|Hge].
    - rewrite Nat.min_l by done. by rewrite !take_ge by lia.
    - by rewrite Nat.min_r by done. }
  rewrite Htake. clear Htake. split.
  - generalize (take 6 items) as taken.
    induction taken as [|item rest IH]; [constructor|].
    cbn [map]. constructor; [apply parseItem_summarises | exact IH].
  - rewrite length_map, length_take. lia.
Qed.

End FeedDates.

Example parseRssXml_untitled :
  EpochHost.parseRssXml [EpochHost.untitled]
  = [BlogManager.mkPost BlogManager.no_title (BlogManager.lit "a bold claim")
       (BlogManager.lit "1970.01.01") (BlogManager.lit "https://arex.tistory.com/2")
       [BlogManager.lit "dev"; BlogManager.lit "web"; BlogManager.lit "js"]
       (BlogManager.lit "tistory")].
Proof. vm_compute. reflexivity. Qed.

(** C9, as stated, fails: the record of an item without publication date
    carries the date 'NaN.NaN.NaN', which is not of the form 'YYYY.MM.DD',
    and the record of an item whose title is empty carries '제목 없음', not
    the item's title. *)
Lemma parseRssXml_counterexample :
  map BlogManager.date (EpochHost.parseRssXml [EpochHost.undated])
  = [BlogManager.lit "NaN.NaN.NaN"]
  /\ is_ymd (BlogManager.lit "NaN.NaN.NaN") = false
  /\ ~ Forall (fun post => is_ymd (BlogManager.date post) = true)
              (EpochHost.parseRssXml [EpochHost.undated])
  /\ map BlogManager.title (EpochHost.parseRssXml [EpochHost.untitled])
     <> [default [] (BlogManager.item_title EpochHost.untitled)].
Proof.
  split; [vm_compute; reflexivity|]. split; [vm_compute; reflexivity|]. split.
  - intros H. apply Forall_cons_1 in H as [H _]. vm_compute in H. discriminate H.
  - vm_compute. discriminate.
Qed.

Lemma parseRssXml_summarises_witness :
  (forall time, 0 <= EpochHost.month time <= 11)
  /\ (forall time, 1 <= EpochHost.day time <= 31)
  /\ Forall2 (summarises EpochHost.parse EpochHost.year EpochHost.month EpochHost.day)
       (take 6 [EpochHost.untitled; EpochHost.undated])
       (EpochHost.parseRssXml [EpochHost.untitled; EpochHost.undated]).
Proof.
  assert (Hm : forall time, 0 <= EpochHost.month time <= 11)
    by (intros; unfold EpochHost.month; lia).
  assert (Hd : forall time, 1 <= EpochHost.day time <= 31)
    by (intros; unfold EpochHost.day; lia).
  split; [exact Hm|]. split; [exact Hd|].
  exact (proj1 (parseRssXml_summarises EpochHost.parse EpochHost.year
                  EpochHost.month EpochHost.day Hm Hd
                  [EpochHost.untitled; EpochHost.undated])).
Defined.

(* ===================================================================== *)
(** * Further properties: StateManager across reloads *)
(* ===================================================================== *)

Lemma saved_insert_eq (storage : gmap string string) key text :
  saved (<[key := text]> storage) key
  = if String.eqb text "" then None else Some text.
Proof. unfold saved. by rewrite lookup_insert_eq. Qed.

Lemma saved_insert_ne (storage : gmap string string) key key' text :
  key <> key' -> saved (<[key := text]> storage) key' = saved storage key'.
Proof. intros Hne. unfold saved. by rewrite lookup_insert_ne. Qed.

Lemma restore_lookup_eq key item (st : gmap string JsValue) :
  restore key item st !! key
  = match item with
    | Some s => Some (JStr s)
    | None => st !! key
    end.
Proof. destruct item; cbn [restore]; [apply lookup_insert_eq | reflexivity]. Qed.

Lemma restore_lookup_ne key key' item (st : gmap string JsValue) :
  key <> key' -> restore key item st !! key' = st !! key'.
Proof.
  intros Hne. destruct item; cbn [restore]; [by rewrite lookup_insert_ne | reflexivity].
Qed.

Lemma reload_state w :
  state (reload w)
  = restore "language" (saved (localStorage w) "portfolio-lang")
      (restore "theme" (saved (localStorage w) "portfolio-theme")
         (StateManager.object_of StateManager.constructor_state)).
Proof. apply constructor_state_lookup. Qed.

Lemma setState_localStorage key value w :
  localStorage (exec (StateManager.setState key value) w)
  = persist_storage key value (localStorage w).
Proof. unfold exec. by rewrite setState_run. Qed.

Lemma setState_state key value w :
  state (exec (StateManager.setState key value) w) = <[key := value]> (state w).
Proof. unfold exec. by rewrite setState_run. Qed.

Lemma setState_subscribers key value w :
  subscribers (exec (StateManager.setState key value) w) = subscribers w.
Proof. unfold exec. by rewrite setState_run. Qed.


(** X2. After [reset()] a reload starts from the constructor's defaults
    in every field: nothing of the earlier session is left in storage for
    the constructor to read back. *)
Theorem reset_then_reload w :
  state (reload (exec StateManager.reset w))
  = StateManager.object_of StateManager.constructor_state.
Proof.
  rewrite reload_state. unfold exec. rewrite reset_run.
  cbn [snd logs with_localStorage with_state localStorage].
  unfold saved.
  rewrite lookup_delete_eq.
  rewrite lookup_delete_ne by done. rewrite lookup_delete_eq.
  reflexivity.
Qed.

(* ===================================================================== *)
(** * Further properties: the subscriber registry *)
(* ===================================================================== *)

Lemma times_registered_cons id c rest :
  times_registered id (c :: rest)
  = ((if Nat.eqb (cb_id c) id then 1 else 0) + times_registered id rest)%nat.
Proof.
  unfold times_registered. cbn [List.filter].
  by destruct (Nat.eqb (cb_id c) id).
Qed.

Lemma times_registered_app id l1 l2 :
  times_registered id (l1 ++ l2)
  = (times_registered id l1 + times_registered id l2)%nat.
Proof.
  induction l1 as [|c rest IH]; [reflexivity|].
  cbn [app]. rewrite !times_registered_cons, IH. lia.
Qed.

Lemma remove_first_absent id callbacks :
  times_registered id callbacks = 0%nat ->
  StateManager.remove_first id callbacks = callbacks.
Proof.
  induction callbacks as [|c rest IH]; [reflexivity|].
  rewrite times_registered_cons. cbn [StateManager.remove_first].
  destruct (Nat.eqb (cb_id c) id); [intros; lia|].
  intros H. by rewrite IH.
Qed.

Lemma remove_first_last id callbacks callback :
  cb_id callback = id ->
  times_registered id callbacks = 0%nat ->
  StateManager.remove_first id (callbacks ++ [callback]) = callbacks.
Proof.
  intros Hid. induction callbacks as [|c rest IH].
  - intros _. cbn. by rewrite Hid, Nat.eqb_refl.
  - rewrite times_registered_cons. cbn [app StateManager.remove_first].
    destruct (Nat.eqb (cb_id c) id); [intros; lia|].
    intros H. by rewrite IH.
Qed.



Lemma times_registered_remove_first id' id callbacks :
  times_registered id' (StateManager.remove_first id callbacks)
  = if Nat.eqb id' id then Nat.pred (times_registered id' callbacks)
    else times_registered id' callbacks.
Proof.
  induction callbacks as [|c rest IH].
  - by destruct (Nat.eqb id' id).
  - cbn [StateManager.remove_first].
    destruct (Nat.eqb_spec (cb_id c) id) as [Hc|Hc].
    + rewrite times_registered_cons.
      destruct (Nat.eqb_spec id' id) as [->|Hne].
      * rewrite Hc, Nat.eqb_refl. reflexivity.
      * destruct (Nat.eqb_spec (cb_id c) id'); [congruence | reflexivity].
    + rewrite !times_registered_cons, IH.
      destruct (Nat.eqb_spec id' id) as [->|Hne]; [|reflexivity].
      destruct (Nat.eqb_spec (cb_id c) id); [congruence|]. reflexivity.
Qed.

Lemma subscribe_subscribers key callback w :
  subscribers (exec (StateManager.subscribe key callback) w)
  = <[key := (registered w key ++ [callback])%list]> (subscribers w).
Proof. reflexivity. Qed.

Lemma unsubscribe_other_key key key' callback w :
  key <> key' ->
  registered (exec (StateManager.unsubscribe key callback) w) key' = registered w key'.
Proof.
  intros Hne. unfold registered, exec, StateManager.unsubscribe, modify.
  cbn [snd subscribers with_subscribers].
  destruct (subscribers w !! key) as [callbacks|]; [|reflexivity].
  destruct (StateManager.remove_first (cb_id callback) callbacks).
  - by rewrite lookup_delete_ne.
  - by rewrite lookup_insert_ne.
Qed.

(** X3. The unsubscribe handle undoes its subscription: in a registry
    without empty lists, subscribing a callback that is not yet registered
    for the key and then unsubscribing it leaves the registry exactly as
    it was, for every key. *)
Theorem subscribe_then_unsubscribe key callback w :
  registry_ok w ->
  times_registered (cb_id callback) (registered w key) = 0%nat ->
  subscribers (exec (StateManager.unsubscribe key callback)
                 (exec (StateManager.subscribe key callback) w))
  = subscribers w.
Proof.
  intros Hok Hfresh.
  set (w1 := exec (StateManager.subscribe key callback) w).
  unfold exec at 1. unfold StateManager.unsubscribe, modify.
  cbn [snd subscribers with_subscribers].
  subst w1. rewrite subscribe_subscribers, lookup_insert_eq.
  rewrite remove_first_last by done.
  unfold registered in *.
  destruct (subscribers w !! key) as [callbacks|] eqn:Hsubs; cbn [default id].
  - destruct callbacks as [|c rest]; [by destruct (Hok key)|].
    rewrite insert_insert_eq. by apply insert_id.
  - rewrite delete_insert_eq. by apply delete_id.
Qed.

Lemma subscribe_then_unsubscribe_witness :
  registry_ok (StateManager.constructor ∅)
  /\ subscribers (exec (StateManager.unsubscribe "theme" (mkCallback 1 (fun _ _ => None)))
                   (exec (StateManager.subscribe "theme" (mkCallback 1 (fun _ _ => None)))
                      (StateManager.constructor ∅)))
     = subscribers (StateManager.constructor ∅).
Proof.
  assert (Hok : registry_ok (StateManager.constructor ∅)).
  { intros key. change (subscribers (StateManager.constructor ∅)) with (∅ : gmap string (list Callback)).
    by rewrite lookup_empty. }
  split; [exact Hok|].
  exact (subscribe_then_unsubscribe "theme" (mkCallback 1 (fun _ _ => None))
           (StateManager.constructor ∅) Hok eq_refl).
Defined.

(** X4. [unsubscribe] removes one registration and no more: the callback
    it is given occurs once less among the subscribers of the key (or
    still not at all), every other callback occurs as often as before, and
    the subscribers of every other key are untouched. A callback
    subscribed twice is therefore still registered once. *)
Theorem unsubscribe_removes_one_registration key callback id w :
  times_registered id (registered (exec (StateManager.unsubscribe key callback) w) key)
  = (if Nat.eqb id (cb_id callback)
     then Nat.pred (times_registered id (registered w key))
     else times_registered id (registered w key))
  /\ sublist (registered (exec (StateManager.unsubscribe key callback) w) key)
             (registered w key)
  /\ (forall key', key <> key' ->
        registered (exec (StateManager.unsubscribe key callback) w) key'
        = registered w key').
Proof.
  split; [|split].
  - unfold registered. rewrite unsubscribe_registry.
    apply times_registered_remove_first.
  - unfold registered. rewrite unsubscribe_registry. apply remove_first_sublist.
  - intros key' Hne. by apply unsubscribe_other_key.
Qed.




(* ===================================================================== *)
(** * Further properties: I18nManager.loadTranslations *)
(* ===================================================================== *)

Section LoadTranslationsRuns.

Import I18nManager.

Variable fetch : string -> FetchResult.

Lemma fetched_app es1 es2 : fetched (es1 ++ es2) = (fetched es1 ++ fetched es2)%list.
Proof. apply omap_app. Qed.

Lemma emitted_app es1 es2 : emitted (es1 ++ es2) = (emitted es1 ++ emitted es2)%list.
Proof. apply omap_app. Qed.

Lemma fetched_map_Fetch paths : fetched (map Fetch paths) = paths.
Proof.
  induction paths as [|p rest IH]; [reflexivity|]. cbn [map].
  change (fetched (Fetch p :: map Fetch rest)) with (p :: fetched (map Fetch rest)).
  by rewrite IH.
Qed.

Lemma fetched_notifications key value oldValue callbacks :
  fetched (notifications key value oldValue callbacks) = [].
Proof.
  induction callbacks as [|cb rest IH]; [reflexivity|].
  rewrite notifications_cons, fetched_app, IH. unfold notification.
  by destruct (cb_run cb value oldValue).
Qed.

Lemma emitted_notifications key value oldValue callbacks :
  emitted (notifications key value oldValue callbacks) = [].
Proof.
  induction callbacks as [|cb rest IH]; [reflexivity|].
  rewrite notifications_cons, emitted_app, IH. unfold notification.
  by destruct (cb_run cb value oldValue).
Qed.

Lemma try_paths_trace paths response lastError w :
  exists response' lastError',
    try_paths fetch paths response lastError w
    = (Returned (response', lastError'), logs (map Fetch (attempted fetch paths)) w)
    /\ match first_ok fetch paths with
       | Some r => response' = Some r
       | None => response_ok response = false -> response_ok response' = false
       end.
Proof.
  revert response lastError w.
  induction paths as [|path rest IH]; intros response lastError w.
  - exists response, lastError. simpl. unfold ret. by rewrite logs_nil.
  - cbn [try_paths first_ok attempted map]. unfold answers_ok, bind, effect, modify.
    destruct (fetch path) as [e|r].
    + destruct (IH response (Some e) (log (Fetch path) w)) as (r' & le' & Hrun & Hres).
      exists r', le'. rewrite Hrun. unfold log. by rewrite logs_logs.
    + destruct (ok r) eqn:Hok.
      * exists (Some r), lastError. by unfold ret.
      * destruct (IH (Some r)
                    (Some (Error ("HTTP " ++ pretty (status r) ++ " for " ++ path)))
                    (log (Fetch path) w)) as (r' & le' & Hrun & Hres).
        exists r', le'. rewrite Hrun. unfold log.
        rewrite logs_logs. split; [done|].
        destruct (first_ok fetch rest); [done|]. intros _. by apply Hres.
Qed.

(** The effects of a [setState('translations', bundle)] and of the event
    that follows it carry no request and exactly two events. *)
Lemma setState_translations_tail bundle event payload w :
  fetched (setState_effects "translations" bundle w ++ [Emit event payload]) = []
  /\ emitted (setState_effects "translations" bundle w ++ [Emit event payload])
     = ["state:changed"; event].
Proof.
  unfold setState_effects.
  change (persist_effects "translations" bundle) with (@nil Effect).
  rewrite !fetched_app, !emitted_app, fetched_notifications, emitted_notifications.
  split; reflexivity.
Qed.

(** What the [try] block does. *)
Lemma load_outcome lang w :
  let es := map Fetch (attempted fetch (possiblePaths lang)) in
  (exists data tail,
     first_ok fetch (possiblePaths lang) <> None
     /\ loaded_bundle fetch lang w = data
     /\ (forall r, first_ok fetch (possiblePaths lang) = Some r ->
           json r = Some data /\ acceptable data = true)
     /\ load fetch lang w
        = (Returned tt,
           logs (es ++ tail)
             (with_state (insert "translations" data) (with_translations data w)))
     /\ fetched tail = []
     /\ emitted tail = ["state:changed"; "i18n:loadingSuccess"])
  \/ (exists error,
        loaded_bundle fetch lang w = fallback_for w
        /\ (forall r data, first_ok fetch (possiblePaths lang) = Some r ->
              json r = Some data -> acceptable data = false)
        /\ load fetch lang w = (Threw error, logs es w)).
Proof.
  intros es. unfold loaded_bundle.
  remember (load fetch lang w) as result eqn:Hresult.
  unfold load in Hresult. unfold bind at 1 in Hresult.
  destruct (try_paths_trace (possiblePaths lang) None None w)
    as (response & lastError & Hrun & Hres).
  rewrite Hrun in Hresult. fold es in Hresult.
  destruct (first_ok fetch (possiblePaths lang)) as [r|] eqn:Hfirst.
  - subst response. rewrite (first_ok_is_ok _ _ _ Hfirst) in Hresult.
    destruct (json r) as [data|] eqn:Hjson.
    + unfold acceptable.
      destruct (truthy data && String.eqb (typeof data) "object") eqn:Hacc.
      * left.
        apply andb_true_iff in Hacc as [Ht Hty].
        rewrite Ht, Hty in Hresult. cbn [negb orb] in Hresult.
        exists data,
          (setState_effects "translations" data (with_translations data (logs es w))
           ++ [ConsoleLog ("Successfully loaded " ++ lang ++ " translations");
               Emit "i18n:loadingSuccess" (LangTranslations lang data)])%list.
        split; [discriminate|]. split; [reflexivity|]. split.
        { intros r0 [= <-]. rewrite Hjson. split; [reflexivity|].
          unfold acceptable. by rewrite Ht, Hty. }
        split.
        { subst result.
          unfold bind at 1, modify at 1. unfold bind at 1. rewrite setState_run.
          unfold bind, console_log, emit, effect, modify, log. cbn [fst snd].
          rewrite !logs_logs.
          change (persist_storage "translations" data) with (fun s : gmap string string => s).
          f_equal. unfold logs, with_localStorage, with_state, with_translations.
          cbn [state subscribers localStorage translations isLoading trace].
          f_equal. by rewrite <- !app_assoc. }
        rewrite !fetched_app, !emitted_app.
        unfold setState_effects.
        change (persist_effects "translations" data) with (@nil Effect).
        rewrite !fetched_app, !emitted_app, fetched_notifications, emitted_notifications.
        split; reflexivity.
      * right.
        assert (Hneg : negb (truthy data) || negb (String.eqb (typeof data) "object") = true).
        { rewrite <- negb_andb. by rewrite Hacc. }
        rewrite Hneg in Hresult. eexists. split; [reflexivity|]. split; [|exact Hresult].
        intros r0 data0 [= <-] Hj. rewrite Hjson in Hj. injection Hj as <-.
        unfold acceptable. exact Hacc.
    + right. eexists. split; [reflexivity|]. split; [|exact Hresult].
      intros r0 data0 [= <-] Hj. rewrite Hjson in Hj. discriminate.
  - right. specialize (Hres eq_refl).
    destruct response as [r|]; simpl in Hres.
    + rewrite Hres in Hresult. eexists. split; [reflexivity|]. split; [|exact Hresult].
      intros r0 data0 Hr0. discriminate.
    + eexists. split; [reflexivity|]. split; [|exact Hresult].
      intros r0 data0 Hr0. discriminate.
Qed.

End LoadTranslationsRuns.

Lemma recover_frame lang error w :
  exists tail,
    I18nManager.recover lang error w
    = (Returned tt,
       logs tail (with_state (insert "translations" (fallback_for w))
                    (with_translations (fallback_for w) w)))
    /\ fetched tail = []
    /\ emitted tail = ["state:changed"; "i18n:loadingError"].
Proof.
  unfold I18nManager.recover.
  unfold bind at 1, console_error at 1, effect at 1, modify at 1.
  unfold bind at 1, console_warn at 1, effect at 1, modify at 1.
  unfold bind at 1. rewrite getFallbackTranslations_run.
  unfold bind at 1, modify at 1. unfold bind at 1. rewrite setState_run.
  unfold emit, effect, modify, log. cbn [fst snd].
  change (fallback_for (logs _ (logs _ w))) with (fallback_for w).
  set (bundle := fallback_for w).
  set (w1 := with_translations bundle (logs _ (logs _ w))).
  exists ([ConsoleError ("Failed to load " ++ lang ++ " translations:") error;
           ConsoleWarn ("Using fallback translations for " ++ lang)]
          ++ setState_effects "translations" bundle w1
          ++ [Emit "i18n:loadingError" (LangError lang error)])%list.
  split.
  - change (persist_storage "translations" bundle) with (fun s : gmap string string => s).
    subst w1. unfold logs, with_localStorage, with_state, with_translations.
    cbn [state subscribers localStorage translations isLoading trace].
    f_equal. f_equal. by rewrite <- !app_assoc.
  - unfold setState_effects.
    change (persist_effects "translations" bundle) with (@nil Effect).
    rewrite !fetched_app, !emitted_app, fetched_notifications, emitted_notifications.
    split; reflexivity.
Qed.

(** A load that runs, from start to end. *)
Lemma loadTranslations_idle fetch lang w :
  isLoading w = false ->
  exists tail outcome_event,
    I18nManager.loadTranslations fetch lang w
    = (Returned tt,
       mkWorld (<["translations" := loaded_bundle fetch (default "en" lang) w]> (state w))
               (subscribers w) (localStorage w)
               (loaded_bundle fetch (default "en" lang) w) false
               (trace w
                ++ [Emit "i18n:loadingStart" (Lang (default "en" lang))]
                ++ map Fetch (attempted fetch (I18nManager.possiblePaths (default "en" lang)))
                ++ tail))
    /\ fetched tail = []
    /\ emitted tail = ["state:changed"; outcome_event; "i18n:loadingEnd"]
    /\ outcome_event = (if load_succeeds fetch (default "en" lang)
                        then "i18n:loadingSuccess" else "i18n:loadingError").
Proof.
  intros Hidle. rewrite loadTranslations_unfold by done.
  set (l := default "en" lang).
  unfold try_catch_finally, try_catch.
  set (w1 := log _ _).
  destruct (load_outcome fetch l w1)
    as [(data & tail & Hsome & Hbundle & Hgood & -> & Hf & He) | (error & Hbundle & Hbad & ->)].
  - exists (tail ++ [Emit "i18n:loadingEnd" (Lang l)])%list, "i18n:loadingSuccess".
    change (loaded_bundle fetch l w1) with (loaded_bundle fetch l w) in Hbundle.
    rewrite Hbundle. split.
    + unfold bind, modify, emit, effect, modify, log. cbn [fst snd].
      subst w1. unfold log, logs, with_isLoading, with_state, with_translations.
      cbn [state subscribers localStorage translations isLoading trace].
      f_equal. f_equal. by rewrite <- !app_assoc.
    + rewrite fetched_app, emitted_app, Hf, He.
      split; [reflexivity|]. split; [reflexivity|].
      unfold load_succeeds.
      destruct (first_ok fetch (I18nManager.possiblePaths l)) as [r|]; [|done].
      destruct (Hgood r eq_refl) as [-> ->]. reflexivity.
  - destruct (recover_frame l error (logs (map Fetch (attempted fetch (I18nManager.possiblePaths l))) w1))
      as (tail & -> & Hf & He).
    exists (tail ++ [Emit "i18n:loadingEnd" (Lang l)])%list, "i18n:loadingError".
    change (loaded_bundle fetch l w1) with (loaded_bundle fetch l w) in Hbundle.
    change (fallback_for w1) with (fallback_for w) in Hbundle.
    change (fallback_for (logs _ w1)) with (fallback_for w).
    rewrite Hbundle. split.
    + unfold bind, modify, emit, effect, modify, log. cbn [fst snd].
      subst w1. unfold log, logs, with_isLoading, with_state, with_translations.
      cbn [state subscribers localStorage translations isLoading trace].
      f_equal. f_equal. by rewrite <- !app_assoc.
    + rewrite fetched_app, emitted_app, Hf, He.
      split; [reflexivity|]. split; [reflexivity|].
      unfold load_succeeds.
      destruct (first_ok fetch (I18nManager.possiblePaths l)) as [r|]; [|reflexivity].
      destruct (I18nManager.json r) as [data|] eqn:Hjson; [|reflexivity].
      by rewrite (Hbad r data eq_refl Hjson).
Qed.

Lemma loadTranslations_busy fetch lang w :
  isLoading w = true ->
  I18nManager.loadTranslations fetch lang w = (Returned tt, w).
Proof.
  intros Hbusy. unfold I18nManager.loadTranslations, bind, gets. by rewrite Hbusy.
Qed.

Lemma attempted_prefix fetch paths : attempted fetch paths `prefix_of` paths.
Proof.
  induction paths as [|path rest IH]; [by exists []|].
  cbn [attempted]. destruct (answers_ok fetch path).
  - by exists rest.
  - by apply prefix_cons.
Qed.

Lemma attempted_ok_is_last fetch paths i path :
  attempted fetch paths !! i = Some path ->
  answers_ok fetch path = true ->
  S i = length (attempted fetch paths).
Proof.
  revert i. induction paths as [|p rest IH]; intros i; [done|].
  cbn [attempted]. destruct (answers_ok fetch p) eqn:Hp.
  - destruct i as [|i]; [reflexivity|]. done.
  - destruct i as [|i]; cbn.
    + intros [= ->] Hok. congruence.
    + intros Hi Hok. f_equal. by apply IH.
Qed.

Lemma attempted_stops_on_ok fetch paths :
  (length (attempted fetch paths) < length paths)%nat ->
  exists path, last (attempted fetch paths) = Some path /\ answers_ok fetch path = true.
Proof.
  induction paths as [|p rest IH]; [cbn; lia|].
  cbn [attempted]. destruct (answers_ok fetch p) eqn:Hp.
  - intros _. by exists p.
  - cbn [length]. intros Hlt.
    destruct IH as (path & Hlast & Hok); [lia|].
    exists path. split; [|exact Hok].
    destruct (attempted fetch rest) as [|q qs] eqn:Hatt; [done|].
    exact Hlast.
Qed.

Lemma new_effects_app w (es : list Effect) w' :
  trace w' = (trace w ++ es)%list -> new_effects w w' = es.
Proof. intros H. unfold new_effects. rewrite H. apply drop_app_length. Qed.

(** X7. A load that runs and finds a usable bundle installs it: when no
    load is in flight and the first candidate that answers OK carries an
    object, that object becomes the manager's translations and the
    'translations' state, the busy flag is cleared, and the events are
    'i18n:loadingStart', 'state:changed', 'i18n:loadingSuccess',
    'i18n:loadingEnd', in this order. *)
Theorem loadTranslations_installs_first_ok fetch lang r data w :
  isLoading w = false ->
  first_ok fetch (I18nManager.possiblePaths (default "en" lang)) = Some r ->
  I18nManager.json r = Some data ->
  acceptable data = true ->
  outcome (I18nManager.loadTranslations fetch lang) w = Returned tt
  /\ translations (exec (I18nManager.loadTranslations fetch lang) w) = data
  /\ state (exec (I18nManager.loadTranslations fetch lang) w) !! "translations" = Some data
  /\ isLoading (exec (I18nManager.loadTranslations fetch lang) w) = false
  /\ emitted (new_effects w (exec (I18nManager.loadTranslations fetch lang) w))
     = ["i18n:loadingStart"; "state:changed"; "i18n:loadingSuccess"; "i18n:loadingEnd"].
Proof.
  intros Hidle Hfirst Hjson Hacc.
  destruct (loadTranslations_idle fetch lang w Hidle)
    as (tail & event & Hrun & Hf & He & Hevent).
  unfold outcome, exec. rewrite Hrun. cbn [fst snd translations state isLoading].
  assert (Hbundle : loaded_bundle fetch (default "en" lang) w = data).
  { unfold loaded_bundle. by rewrite Hfirst, Hjson, Hacc. }
  assert (Hok : load_succeeds fetch (default "en" lang) = true).
  { unfold load_succeeds. by rewrite Hfirst, Hjson. }
  rewrite Hbundle, lookup_insert_eq.
  repeat (split; [reflexivity|]).
  erewrite new_effects_app by reflexivity.
  rewrite !emitted_app, He, Hevent, Hok.
  assert (Hnone : forall paths, emitted (map Fetch paths) = []).
  { induction paths as [|p rest IH]; [reflexivity | exact IH]. }
  by rewrite Hnone.
Qed.

Lemma loadTranslations_installs_first_ok_witness :
  translations
    (exec (I18nManager.loadTranslations
             (fun path =>
                if String.eqb path "languages/en.json"
                then I18nManager.Responded
                       (I18nManager.mkResponse true 200 (Some I18nManager.fallback_en))
                else I18nManager.Responded (I18nManager.mkResponse false 404 None))
             None)
       (StateManager.constructor ∅))
  = I18nManager.fallback_en.
Proof.
  exact (proj1 (proj2 (loadTranslations_installs_first_ok
    (fun path =>
       if String.eqb path "languages/en.json"
       then I18nManager.Responded
              (I18nManager.mkResponse true 200 (Some I18nManager.fallback_en))
       else I18nManager.Responded (I18nManager.mkResponse false 404 None))
    None (I18nManager.mkResponse true 200 (Some I18nManager.fallback_en))
    I18nManager.fallback_en (StateManager.constructor ∅)
    eq_refl eq_refl eq_refl eq_refl))).
Defined.

(** X8. There is no retry after an OK response: when no load is in flight
    and the first candidate that answers OK carries a payload the
    validation rejects (not JSON, or not an object), the fallback bundle
    is installed and no later candidate is requested, whatever the later
    candidates would have answered. *)
Theorem loadTranslations_does_not_retry_after_ok fetch lang r w :
  isLoading w = false ->
  first_ok fetch (I18nManager.possiblePaths (default "en" lang)) = Some r ->
  match I18nManager.json r with
  | Some data => acceptable data = false
  | None => True
  end ->
  translations (exec (I18nManager.loadTranslations fetch lang) w) = fallback_for w
  /\ state (exec (I18nManager.loadTranslations fetch lang) w) !! "translations"
     = Some (fallback_for w)
  /\ (exists path,
        last (fetched (new_effects w (exec (I18nManager.loadTranslations fetch lang) w)))
        = Some path
        /\ fetch path = I18nManager.Responded r)
  /\ emitted (new_effects w (exec (I18nManager.loadTranslations fetch lang) w))
     = ["i18n:loadingStart"; "state:changed"; "i18n:loadingError"; "i18n:loadingEnd"].
Proof.
  intros Hidle Hfirst Hbad.
  destruct (loadTranslations_idle fetch lang w Hidle)
    as (tail & event & Hrun & Hf & He & Hevent).
  unfold exec. rewrite Hrun. cbn [fst snd translations state].
  assert (Hbundle : loaded_bundle fetch (default "en" lang) w = fallback_for w).
  { unfold loaded_bundle. rewrite Hfirst.
    destruct (I18nManager.json r); [by rewrite Hbad | reflexivity]. }
  assert (Hfail : load_succeeds fetch (default "en" lang) = false).
  { unfold load_succeeds. rewrite Hfirst.
    destruct (I18nManager.json r); [exact Hbad | reflexivity]. }
  rewrite Hbundle, lookup_insert_eq.
  split; [reflexivity|]. split; [reflexivity|].
  erewrite new_effects_app by reflexivity.
  assert (Hnone : forall paths, emitted (map Fetch paths) = []).
  { induction paths as [|p rest IH]; [reflexivity | exact IH]. }
  rewrite !fetched_app, !emitted_app, fetched_map_Fetch, Hf, He, Hevent, Hfail, Hnone.
  split; [|reflexivity].
  cbn [fetched omap app]. rewrite app_nil_r.
  clear -Hfirst. revert Hfirst.
  generalize (I18nManager.possiblePaths (default "en" lang)) as paths.
  induction paths as [|p rest IH]; [discriminate|].
  cbn [first_ok attempted]. unfold answers_ok.
  destruct (fetch p) as [e|r'] eqn:Hp.
  - intros Hrest. destruct (IH Hrest) as (path & Hlast & Hpath).
    exists path. split; [|exact Hpath].
    destruct (attempted fetch rest); [done | exact Hlast].
  - destruct (I18nManager.ok r') eqn:Hok.
    + intros [= ->]. by exists p.
    + intros Hrest. destruct (IH Hrest) as (path & Hlast & Hpath).
      exists path. split; [|exact Hpath].
      destruct (attempted fetch rest); [done | exact Hlast].
Qed.

Lemma loadTranslations_does_not_retry_after_ok_witness :
  translations
    (exec (I18nManager.loadTranslations
             (fun path =>
                if String.eqb path "./languages/ko.json"
                then I18nManager.Responded (I18nManager.mkResponse true 200 None)
                else I18nManager.Responded
                       (I18nManager.mkResponse true 200 (Some I18nManager.fallback_en)))
             (Some "ko"))
       (StateManager.constructor ∅))
  = I18nManager.fallback_ko.
Proof.
  exact (proj1 (loadTranslations_does_not_retry_after_ok
    (fun path =>
       if String.eqb path "./languages/ko.json"
       then I18nManager.Responded (I18nManager.mkResponse true 200 None)
       else I18nManager.Responded
              (I18nManager.mkResponse true 200 (Some I18nManager.fallback_en)))
    (Some "ko") (I18nManager.mkResponse true 200 None)
    (StateManager.constructor ∅) eq_refl eq_refl I)).
Defined.

Lemma loadTranslations_world_frame fetch lang w :
  localStorage (exec (I18nManager.loadTranslations fetch lang) w) = localStorage w
  /\ subscribers (exec (I18nManager.loadTranslations fetch lang) w) = subscribers w
  /\ isLoading (exec (I18nManager.loadTranslations fetch lang) w) = isLoading w.
Proof.
  unfold exec. destruct (isLoading w) eqn:Hbusy.
  - rewrite loadTranslations_busy by done. cbn [snd]. auto.
  - destruct (loadTranslations_idle fetch lang w Hbusy) as (tail & event & -> & _).
    repeat split; reflexivity.
Qed.

(** X9. [loadTranslations] touches nothing but the translations: whatever
    the network answers and whether or not a load is in flight, it returns
    normally, and storage (so the persisted language and theme), the
    subscriber registry, every state field other than 'translations' and
    the busy flag are afterwards as it found them. *)
Theorem loadTranslations_touches_only_translations fetch lang w :
  outcome (I18nManager.loadTranslations fetch lang) w = Returned tt
  /\ localStorage (exec (I18nManager.loadTranslations fetch lang) w) = localStorage w
  /\ subscribers (exec (I18nManager.loadTranslations fetch lang) w) = subscribers w
  /\ isLoading (exec (I18nManager.loadTranslations fetch lang) w) = isLoading w
  /\ (forall key, key <> "translations" ->
        state (exec (I18nManager.loadTranslations fetch lang) w) !! key = state w !! key).
Proof.
  split; [apply loadTranslations_returns|].
  destruct (loadTranslations_world_frame fetch lang w) as (Hs & Hr & Hb).
  split; [exact Hs|]. split; [exact Hr|]. split; [exact Hb|].
  intros key Hkey. by apply loadTranslations_state.
Qed.

(** X10. The candidates are requested in order and the search stops at
    the first OK answer: in a load that runs, the requested paths are a
    non-empty prefix of the three candidates, a path that answered OK is
    the last one requested, and when fewer than three were requested the
    last one answered OK. *)
Theorem loadTranslations_requests_in_order fetch lang w :
  isLoading w = false ->
  let candidates := I18nManager.possiblePaths (default "en" lang) in
  let requests := fetched (new_effects w (exec (I18nManager.loadTranslations fetch lang) w)) in
  requests `prefix_of` candidates
  /\ requests <> []
  /\ length candidates = 3%nat
  /\ (forall i path, requests !! i = Some path -> answers_ok fetch path = true ->
        S i = length requests)
  /\ ((length requests < 3)%nat ->
        exists path, last requests = Some path /\ answers_ok fetch path = true).
Proof.
  intros Hidle candidates requests.
  assert (Hreq : requests = attempted fetch candidates).
  { subst requests.
    destruct (loadTranslations_idle fetch lang w Hidle)
      as (tail & event & Hrun & Hf & _).
    unfold exec. rewrite Hrun. cbn [snd].
    erewrite new_effects_app by reflexivity.
    rewrite !fetched_app, fetched_map_Fetch, Hf. cbn [fetched omap app].
    by rewrite app_nil_r. }
  rewrite Hreq.
  split; [apply attempted_prefix|]. split; [done|]. split; [reflexivity|]. split.
  - intros i path. apply attempted_ok_is_last.
  - intros Hlt. by apply attempted_stops_on_ok.
Qed.

Lemma loadTranslations_requests_in_order_witness :
  fetched
    (new_effects (StateManager.constructor ∅)
       (exec (I18nManager.loadTranslations
                (fun path =>
                   if String.eqb path "languages/en.json"
                   then I18nManager.Responded
                          (I18nManager.mkResponse true 200 (Some I18nManager.fallback_en))
                   else I18nManager.Rejected (Error "offline"))
                None)
             (StateManager.constructor ∅)))
  `prefix_of` I18nManager.possiblePaths "en".
Proof.
  exact (proj1 (loadTranslations_requests_in_order
    (fun path =>
       if String.eqb path "languages/en.json"
       then I18nManager.Responded
              (I18nManager.mkResponse true 200 (Some I18nManager.fallback_en))
       else I18nManager.Rejected (Error "offline"))
    None (StateManager.constructor ∅) eq_refl)).
Defined.

(* ===================================================================== *)
(** * Further properties: the registry in every page state *)
(* ===================================================================== *)

Lemma setTheme_subscribers theme w :
  subscribers (exec (ThemeManager.setTheme theme) w) = subscribers w.
Proof.
  unfold exec. rewrite setTheme_run, setState_run. cbn [snd].
  by destruct (is_string theme "light" || is_string theme "dark").
Qed.

Lemma run_preserves_registry_ok op w : registry_ok w -> registry_ok (exec (run op) w).
Proof.
  intros Hok key. destruct op; cbn [run].
  - rewrite setTheme_subscribers. apply Hok.
  - unfold exec. rewrite toggleTheme_run.
    fold (exec (ThemeManager.setTheme
      (if is_string (default JUndefined (state w !! "theme")) "dark"
       then JStr "light" else JStr "dark")) w).
    rewrite setTheme_subscribers. apply Hok.
  - unfold exec. rewrite reset_run. apply Hok.
  - rewrite setState_subscribers. apply Hok.
  - rewrite subscribe_subscribers.
    destruct (decide (key0 = key)) as [->|Hne].
    + rewrite lookup_insert_eq. intros [= H]. by destruct (registered w key).
    + rewrite lookup_insert_ne by done. apply Hok.
  - unfold exec, StateManager.unsubscribe, modify. cbn [snd subscribers with_subscribers].
    destruct (subscribers w !! key0) as [callbacks|] eqn:Hsubs; [|apply Hok].
    destruct (StateManager.remove_first (cb_id callback) callbacks) as [|c rest].
    + destruct (decide (key0 = key)) as [->|Hne].
      * by rewrite lookup_delete_eq.
      * rewrite lookup_delete_ne by done. apply Hok.
    + destruct (decide (key0 = key)) as [->|Hne].
      * by rewrite lookup_insert_eq.
      * rewrite lookup_insert_ne by done. apply Hok.
  - destruct (loadTranslations_world_frame fetch lang w) as (_ & -> & _). apply Hok.
Qed.

(** X11. The registry never keeps an empty entry: in every state reached
    from the constructor through the operations of the layer, no key is
    bound to an empty subscriber list, so a key is present in the registry
    exactly when it has a subscriber. *)
Theorem registry_has_no_empty_entry storage w :
  page_state storage w ->
  forall key, subscribers w !! key <> Some [] .
Proof.
  intros Hreach. change (registry_ok w).
  induction Hreach as [|w op _ IH].
  - intros key.
    assert (Hinit : subscribers (StateManager.constructor storage) = ∅).
    { unfold StateManager.constructor, StateManager.init, exec, bind.
      by rewrite loadPersistedState_run. }
    by rewrite Hinit, lookup_empty.
  - by apply run_preserves_registry_ok.
Qed.

Lemma registry_has_no_empty_entry_witness :
  subscribers
    (exec (run (Unsubscribe "theme" (mkCallback 1 (fun _ _ => None))))
       (exec (run (Subscribe "theme" (mkCallback 1 (fun _ _ => None))))
          (StateManager.constructor ∅))) !! "theme" <> Some [].
Proof.
  apply (registry_has_no_empty_entry ∅).
  apply page_step. apply page_step. apply page_start.
Defined.

(* ===================================================================== *)
(** * Further properties: ThemeManager *)
(* ===================================================================== *)

Lemma setTheme_localStorage theme w :
  localStorage (exec (ThemeManager.setTheme theme) w)
  = <["portfolio-theme" := to_string (applied_theme theme)]> (localStorage w).
Proof.
  unfold exec. rewrite setTheme_run, setState_run. cbn [snd].
  by destruct (is_string theme "light" || is_string theme "dark").
Qed.

Lemma toggled_theme_valid (current : JsValue) :
  applied_theme (if is_string current "dark" then JStr "light" else JStr "dark")
  = (if is_string current "dark" then JStr "light" else JStr "dark").
Proof. by destruct (is_string current "dark"). Qed.

Lemma toggleTheme_localStorage w :
  localStorage (exec ThemeManager.toggleTheme w)
  = <["portfolio-theme" :=
        to_string (if is_string (default JUndefined (state w !! "theme")) "dark"
                   then JStr "light" else JStr "dark")]> (localStorage w).
Proof.
  unfold exec. rewrite toggleTheme_run.
  fold (exec (ThemeManager.setTheme
    (if is_string (default JUndefined (state w !! "theme")) "dark"
     then JStr "light" else JStr "dark")) w).
  by rewrite setTheme_localStorage, toggled_theme_valid.
Qed.

(** X12. One [toggleTheme] normalises any state: whatever the theme field
    held, afterwards it is 'light' or 'dark' ('light' exactly when it was
    'dark'), and from then on two more toggles change neither the state
    nor storage. *)
Theorem toggleTheme_normalises w :
  let w1 := exec ThemeManager.toggleTheme w in
  let w3 := exec ThemeManager.toggleTheme (exec ThemeManager.toggleTheme w1) in
  state w1 !! "theme"
  = Some (if is_string (default JUndefined (state w !! "theme")) "dark"
          then JStr "light" else JStr "dark")
  /\ theme_valid w1
  /\ state w3 = state w1
  /\ localStorage w3 = localStorage w1.
Proof.
  intros w1 w3. subst w3 w1. unfold theme_valid.
  rewrite !toggleTheme_localStorage, !toggleTheme_state, !lookup_insert_eq.
  rewrite !insert_insert_eq. cbn [default id].
  generalize (default JUndefined (state w !! "theme")) as current. intros current.
  destruct (is_string current "dark");
    (split; [reflexivity|]); (split; [auto|]); split; reflexivity.
Qed.

(** X13. The last [setTheme] wins: after two calls in a row the state and
    storage are those the second call alone would have produced. *)
Theorem setTheme_last_call_wins first second w :
  state (exec (ThemeManager.setTheme second) (exec (ThemeManager.setTheme first) w))
  = state (exec (ThemeManager.setTheme second) w)
  /\ localStorage (exec (ThemeManager.setTheme second) (exec (ThemeManager.setTheme first) w))
     = localStorage (exec (ThemeManager.setTheme second) w).
Proof.
  rewrite !setTheme_state, !setTheme_localStorage.
  by rewrite !insert_insert_eq.
Qed.

(** X14. The theme survives a reload: after [setTheme] or [toggleTheme],
    a StateManager constructed over the storage the page leaves has the
    same theme as the page had. *)
Theorem theme_survives_reload theme w :
  state (reload (exec (ThemeManager.setTheme theme) w)) !! "theme"
  = state (exec (ThemeManager.setTheme theme) w) !! "theme"
  /\ state (reload (exec ThemeManager.toggleTheme w)) !! "theme"
     = state (exec ThemeManager.toggleTheme w) !! "theme".
Proof.
  split.
  - rewrite reload_state, setTheme_localStorage, setTheme_state, lookup_insert_eq.
    rewrite restore_lookup_ne by done.
    rewrite restore_lookup_eq, saved_insert_eq.
    by destruct (applied_theme_valid theme) as [-> | ->].
  - rewrite reload_state, toggleTheme_localStorage, toggleTheme_state, lookup_insert_eq.
    rewrite restore_lookup_ne by done.
    rewrite restore_lookup_eq, saved_insert_eq.
    by destruct (is_string (default JUndefined (state w !! "theme")) "dark").
Qed.

Section ThemeDisplay.

Import ThemeManager.

Lemma mem_In token classes : mem token classes = true <-> In token classes.
Proof.
  unfold mem. rewrite existsb_exists. split.
  - intros (c & Hin & Heq). apply String.eqb_eq in Heq. by subst.
  - intros Hin. exists token. split; [exact Hin | apply String.eqb_refl].
Qed.

Lemma classList_add_In token classes c :
  In c (classList_add token classes) <-> c = token \/ In c classes.
Proof.
  unfold classList_add. destruct (mem token classes) eqn:Hmem.
  - apply mem_In in Hmem. split; [auto | intros [-> | H]; auto].
  - rewrite in_app_iff. cbn [In]. split.
    + intros [H | [H | []]]; auto.
    + intros [H | H]; auto.
Qed.

Lemma classList_remove_In token classes c :
  In c (classList_remove token classes) <-> In c classes /\ c <> token.
Proof.
  unfold classList_remove. rewrite filter_In, negb_true_iff.
  split; intros [Hin Hne]; (split; [exact Hin|]).
  - intros ->. by rewrite String.eqb_refl in Hne.
  - by apply String.eqb_neq.
Qed.

Lemma classList_remove_twice token classes :
  classList_remove token (classList_remove token classes) = classList_remove token classes.
Proof.
  unfold classList_remove. induction classes as [|c rest IH]; [reflexivity|].
  cbn [List.filter]. destruct (negb (String.eqb c token)) eqn:Hc; [|exact IH].
  cbn [List.filter]. by rewrite Hc, IH.
Qed.

Lemma classList_swap_twice on off classes :
  on <> off ->
  classList_remove off (classList_add on (classList_remove off (classList_add on classes)))
  = classList_remove off (classList_add on classes).
Proof.
  intros Hne.
  assert (Hmem : mem on (classList_remove off (classList_add on classes)) = true).
  { apply mem_In, classList_remove_In. split; [|exact Hne].
    apply classList_add_In. by left. }
  unfold classList_add at 1. rewrite Hmem. apply classList_remove_twice.
Qed.

(** X15. [applyTheme] leaves the page in one of two displays and is
    idempotent: the root carries [data-theme="dark"] exactly when the
    theme is not 'light'; the toggle control, when there is one, carries
    the class of the display and not the other one, and keeps all its
    other classes; and applying the same theme again changes nothing. *)
Theorem applyTheme_marks_one_display theme dom :
  let on := if is_string theme "light" then "light" else "dark" in
  let off := if is_string theme "light" then "dark" else "light" in
  data_theme (applyTheme theme dom)
  = (if is_string theme "light" then None else Some "dark")
  /\ match themeToggle dom, themeToggle (applyTheme theme dom) with
     | Some classes, Some classes' =>
         forall c, In c classes' <-> c = on \/ (In c classes /\ c <> off)
     | None, None => True
     | _, _ => False
     end
  /\ applyTheme theme (applyTheme theme dom) = applyTheme theme dom.
Proof.
  intros on off. subst on off. unfold applyTheme.
  destruct (is_string theme "light"); cbn [data_theme themeToggle];
    (split; [reflexivity|]); destruct (themeToggle dom) as [classes|]; split;
    try exact I; try reflexivity.
  - intros c. rewrite classList_remove_In, classList_add_In. split.
    + intros [[-> | Hin] Hne]; auto.
    + intros [-> | [Hin Hne]]; [split; [by left | discriminate] | auto].
  - by rewrite classList_swap_twice.
  - intros c. rewrite classList_remove_In, classList_add_In. split.
    + intros [[-> | Hin] Hne]; auto.
    + intros [-> | [Hin Hne]]; [split; [by left | discriminate] | auto].
  - by rewrite classList_swap_twice.
Qed.

Lemma isDarkTheme_run w :
  isDarkTheme w = (Returned (is_string (default JUndefined (state w !! "theme")) "dark"), w).
Proof. reflexivity. Qed.

(** X16. On a valid theme the display agrees with [isDarkTheme()]: when
    the theme field is 'light' or 'dark', applying it puts
    [data-theme="dark"] on the root exactly when [isDarkTheme()] answers
    true. *)
Theorem display_agrees_with_isDarkTheme dom w :
  theme_valid w ->
  outcome isDarkTheme w
  = Returned (bool_decide
                (data_theme (applyTheme (default JUndefined (state w !! "theme")) dom)
                 = Some "dark")).
Proof.
  intros Hvalid. unfold outcome. rewrite isDarkTheme_run. cbn [fst].
  unfold applyTheme. by destruct Hvalid as [-> | ->].
Qed.

Lemma display_agrees_with_isDarkTheme_witness :
  outcome isDarkTheme (exec toggleTheme (StateManager.constructor ∅))
  = Returned (bool_decide
                (data_theme
                   (applyTheme
                      (default JUndefined
                         (state (exec toggleTheme (StateManager.constructor ∅)) !! "theme"))
                      (mkThemeDom None (Some ["light"])))
                 = Some "dark")).
Proof.
  apply display_agrees_with_isDarkTheme.
  right. vm_compute. reflexivity.
Defined.

End ThemeDisplay.

(* ===================================================================== *)
(** * Further properties: the navigation flag *)
(* ===================================================================== *)

Lemma getState_isNavOpen w :
  StateManager.getState "isNavOpen" w
  = (Returned (default JUndefined (state w !! "isNavOpen")), w).
Proof. reflexivity. Qed.

Lemma toggleNav_run w :
  NavManager.toggleNav w
  = StateManager.setState "isNavOpen"
      (JBool (negb (truthy (default JUndefined (state w !! "isNavOpen"))))) w.
Proof. reflexivity. Qed.

(** X17. Two [toggleNav] calls bring the menu back: afterwards
    [isNavOpen()] answers the boolean that the flag meant before (the flag
    itself when it was a boolean), and storage is as before: the menu
    state is never persisted. *)
Theorem toggleNav_twice w :
  let w2 := exec NavManager.toggleNav (exec NavManager.toggleNav w) in
  outcome NavManager.isNavOpen w2
  = Returned (JBool (truthy (default JUndefined (state w !! "isNavOpen"))))
  /\ localStorage w2 = localStorage w.
Proof.
  intros w2. subst w2.
  assert (Hstate : forall w',
            state (exec NavManager.toggleNav w')
            = <["isNavOpen" :=
                  JBool (negb (truthy (default JUndefined (state w' !! "isNavOpen"))))]>
                (state w')).
  { intros w'. unfold exec. rewrite toggleNav_run. apply setState_state. }
  assert (Hstorage : forall w',
            localStorage (exec NavManager.toggleNav w') = localStorage w').
  { intros w'. unfold exec. rewrite toggleNav_run. apply setState_localStorage. }
  split.
  - unfold outcome, NavManager.isNavOpen. rewrite getState_isNavOpen. cbn [fst].
    rewrite !Hstate, !lookup_insert_eq. cbn [default id truthy].
    by rewrite negb_involutive.
  - by rewrite !Hstorage.
Qed.

Lemma onNavStateChanged_settled isOpen w :
  state w !! "isNavOpen" = Some (JBool isOpen) ->
  App.onNavStateChanged isOpen w = (Returned tt, w).
Proof.
  intros Hstate. unfold App.onNavStateChanged, bind.
  rewrite getState_isNavOpen, Hstate. cbn [default id App.differs_from].
  by rewrite Bool.eqb_reflx.
Qed.

Lemma onNavStateChanged_state isOpen w :
  state (exec (App.onNavStateChanged isOpen) w) !! "isNavOpen" = Some (JBool isOpen).
Proof.
  unfold exec, App.onNavStateChanged, bind. rewrite getState_isNavOpen.
  destruct (App.differs_from (default JUndefined (state w !! "isNavOpen")) isOpen) eqn:Hd.
  - rewrite setState_run. cbn [snd state logs with_state with_localStorage].
    apply lookup_insert_eq.
  - unfold ret. cbn [snd]. unfold App.differs_from in Hd.
    destruct (state w !! "isNavOpen") as [[| |b| | | | |]|] eqn:Hst;
      try discriminate Hd.
    cbn [default id] in Hd. apply negb_false_iff, Bool.eqb_prop in Hd. by subst.
Qed.

(** X18. The 'nav:stateChanged' route cannot feed back: the handler
    leaves the flag equal to the announced value, and when the flag
    already has that value (as it does right after NavManager set it, or
    after the handler ran once) it changes nothing and emits nothing. *)
Theorem onNavStateChanged_does_not_feed_back isOpen w :
  state (exec (App.onNavStateChanged isOpen) w) !! "isNavOpen" = Some (JBool isOpen)
  /\ App.onNavStateChanged isOpen (exec (App.onNavStateChanged isOpen) w)
     = (Returned tt, exec (App.onNavStateChanged isOpen) w)
  /\ App.onNavStateChanged isOpen
       (exec (StateManager.setState "isNavOpen" (JBool isOpen)) w)
     = (Returned tt, exec (StateManager.setState "isNavOpen" (JBool isOpen)) w).
Proof.
  split; [apply onNavStateChanged_state|]. split.
  - apply onNavStateChanged_settled, onNavStateChanged_state.
  - apply onNavStateChanged_settled. rewrite setState_state. apply lookup_insert_eq.
Qed.

(* ===================================================================== *)
(** * Further properties: BlogManager text *)
(* ===================================================================== *)

Section FeedText.

Import BlogManager.
Local Open Scope list_scope.
Local Open Scope nat_scope.

Lemma after_gt_absent u : GT ∉ u -> after_gt u = None.
Proof.
  induction u as [|d u IH]; [reflexivity|].
  intros Hnot. apply not_elem_of_cons in Hnot as [Hd Hu].
  cbn [after_gt]. destruct (N.eqb_spec d GT); [congruence | by apply IH].
Qed.

Lemma strip_tags_fixed s : tag_free s -> strip_tags s = s.
Proof.
  induction s as [|c rest IH]; [reflexivity|].
  intros Hfree.
  assert (Hrest : tag_free rest).
  { apply (tag_free_substring [c] rest []). by rewrite app_nil_r. }
  destruct (N.eq_dec c LT) as [->|Hc].
  - rewrite strip_tags_lt, after_gt_absent; [reflexivity|].
    by apply (Hfree [] rest).
  - rewrite strip_tags_other by done. by rewrite IH.
Qed.

(** X19. Removing tags is idempotent: once stripped, a text has nothing
    left that the pattern matches, so stripping it again returns it
    unchanged. *)
Theorem strip_tags_idempotent s : strip_tags (strip_tags s) = strip_tags s.
Proof. apply strip_tags_fixed, strip_tags_tag_free. Qed.

Lemma strip_tags_sublist s : sublist (strip_tags s) s.
Proof.
  remember (length s) as n eqn:Hn. revert s Hn.
  induction n as [n IH] using lt_wf_ind. intros s Hn.
  destruct s as [|c rest]; [constructor|].
  destruct (N.eq_dec c LT) as [->|Hc].
  - rewrite strip_tags_lt. destruct (after_gt rest) as [u|] eqn:Hu; [|reflexivity].
    pose proof (after_gt_shorter _ _ Hu) as Hlen.
    destruct (after_gt_split _ _ Hu) as (body & -> & _).
    apply sublist_cons.
    etransitivity; [apply (IH (length u)); [subst n; simpl; lia | reflexivity]|].
    apply sublist_inserts_l. by apply sublist_cons.
  - rewrite strip_tags_other by done. apply sublist_skip.
    apply (IH (length rest)); [subst n; simpl; lia | reflexivity].
Qed.

Lemma trim_sublist s : sublist (trim s) s.
Proof.
  destruct (trim_substring s) as (p & q & H). rewrite H at 2.
  apply sublist_inserts_l, sublist_inserts_r. reflexivity.
Qed.

(** X20. [cleanHtmlAndTruncate] invents no text: its result is a
    subsequence of the code units of the input, followed by '...' exactly
    when the cleaned text was longer than the cap. *)
Theorem cleanHtmlAndTruncate_keeps_input_text html maxLength :
  exists kept,
    sublist kept html
    /\ cleanHtmlAndTruncate html maxLength
       = kept ++ (if length (plain_text html) <=? maxLength then [] else lit "...").
Proof.
  unfold cleanHtmlAndTruncate. fold (plain_text html).
  assert (Hplain : sublist (plain_text html) html).
  { unfold plain_text. etransitivity; [apply trim_sublist | apply strip_tags_sublist]. }
  destruct (length (plain_text html) <=? maxLength).
  - exists (plain_text html). split; [exact Hplain | by rewrite app_nil_r].
  - exists (trim (substring0 maxLength (plain_text html))). split; [|reflexivity].
    etransitivity; [apply trim_sublist|].
    etransitivity; [apply sublist_take | exact Hplain].
Qed.

Lemma trim_start_no_space s : starts_with_space (trim_start s) = false.
Proof.
  induction s as [|c rest IH]; [reflexivity|].
  cbn [trim_start]. destruct (is_space c) eqn:Hc; [exact IH|].
  cbn [starts_with_space]. exact Hc.
Qed.

Lemma trim_start_fixed s : starts_with_space s = false -> trim_start s = s.
Proof.
  destruct s as [|c rest]; [reflexivity|].
  cbn [starts_with_space trim_start]. by intros ->.
Qed.

Lemma trim_start_keeps_last l c :
  is_space c = false -> exists kept, trim_start (l ++ [c]) = kept ++ [c].
Proof.
  intros Hc. induction l as [|d l IH].
  - exists []. cbn. by rewrite Hc.
  - cbn [app trim_start]. destruct (is_space d); [exact IH|].
    by exists (d :: l).
Qed.

Lemma trim_no_space s :
  starts_with_space (trim s) = false /\ ends_with_space (trim s) = false.
Proof.
  unfold trim, ends_with_space. rewrite rev_involutive. split.
  - pose proof (trim_start_no_space s) as Hstart.
    destruct (trim_start s) as [|c rest]; [reflexivity|].
    cbn [starts_with_space] in Hstart. cbn [rev].
    destruct (trim_start_keeps_last (rev rest) c Hstart) as [kept ->].
    rewrite rev_app_distr. cbn. exact Hstart.
  - apply trim_start_no_space.
Qed.

Lemma trim_fixed s :
  starts_with_space s = false -> ends_with_space s = false -> trim s = s.
Proof.
  intros Hstart Hend. unfold trim, ends_with_space in *.
  rewrite (trim_start_fixed s) by done.
  rewrite (trim_start_fixed (rev s)) by done.
  apply rev_involutive.
Qed.

(** X21. The result of [cleanHtmlAndTruncate] never begins or ends with
    a white-space character, whatever the input and the cap. *)
Theorem cleanHtmlAndTruncate_is_trimmed html maxLength :
  starts_with_space (cleanHtmlAndTruncate html maxLength) = false
  /\ ends_with_space (cleanHtmlAndTruncate html maxLength) = false.
Proof.
  unfold cleanHtmlAndTruncate.
  destruct (length (trim (strip_tags html)) <=? maxLength).
  - apply trim_no_space.
  - destruct (trim_no_space (substring0 maxLength (trim (strip_tags html))))
      as [Hstart _].
    split.
    + destruct (trim (substring0 maxLength (trim (strip_tags html)))); [reflexivity|].
      exact Hstart.
    + unfold ends_with_space. by rewrite rev_app_distr.
Qed.

(** X22. Clean text passes through unchanged: a text without tags, with
    no white space at either end and no longer than the cap is returned as
    it is. *)
Theorem cleanHtmlAndTruncate_fixes_clean_text s maxLength :
  tag_free s ->
  starts_with_space s = false ->
  ends_with_space s = false ->
  length s <= maxLength ->
  cleanHtmlAndTruncate s maxLength = s.
Proof.
  intros Hfree Hstart Hend Hlen. unfold cleanHtmlAndTruncate.
  rewrite strip_tags_fixed by done. rewrite trim_fixed by done.
  by rewrite (proj2 (Nat.leb_le _ _) Hlen).
Qed.

Lemma cleanHtmlAndTruncate_fixes_clean_text_witness :
  cleanHtmlAndTruncate (lit "a < b, said Kim") 150 = lit "a < b, said Kim".
Proof.
  apply cleanHtmlAndTruncate_fixes_clean_text.
  - apply tag_free_no_gt. not_among.
  - reflexivity.
  - reflexivity.
  - vm_compute. lia.
Defined.

(** X23. [extractTags] always answers between one and three tags: as many
    as there are categories, but at least one and at most three. *)
Theorem extractTags_count categories :
  length (extractTags categories) = Nat.max 1 (Nat.min 3 (length categories)).
Proof.
  destruct categories as [|c1 [|c2 [|c3 rest]]]; reflexivity.
Qed.

Lemma same_titles_and_dates_keys posts1 posts2 :
  length posts1 = length posts2 ->
  same_titles_and_dates posts1 posts2 = true
  <-> map post_key posts1 = map post_key posts2.
Proof.
  revert posts2. induction posts1 as [|p1 rest1 IH]; intros [|p2 rest2] Hlen;
    try discriminate Hlen.
  - split; reflexivity.
  - injection Hlen as Hlen. cbn [same_titles_and_dates map]. unfold ustring_eqb, post_key.
    destruct (decide (title p1 = title p2)) as [Ht|Ht].
    + rewrite (bool_decide_true _ Ht).
      destruct (decide (date p1 = date p2)) as [Hd|Hd].
      * rewrite (bool_decide_true _ Hd). cbn [negb orb].
        rewrite (IH rest2 Hlen). split.
        -- intros H. rewrite Ht, Hd. f_equal. exact H.
        -- intros [= _ _ H]. exact H.
      * rewrite (bool_decide_false _ Hd). cbn [negb orb]. split; [discriminate|].
        intros [= _ Hd' _]. by destruct Hd.
    + rewrite (bool_decide_false _ Ht). cbn [negb orb]. split; [discriminate|].
      intros [= Ht' _ _]. by destruct Ht.
Qed.

(** X24. [arePostsEqual] compares titles and dates only: it answers true
    exactly when both arguments are arrays of the same length whose posts
    agree pairwise in title and date; descriptions, links and tags are
    not looked at. *)
Theorem arePostsEqual_compares_titles_and_dates posts1 posts2 :
  arePostsEqual posts1 posts2 = true
  <-> exists l1 l2,
        posts1 = Some l1 /\ posts2 = Some l2 /\ map post_key l1 = map post_key l2.
Proof.
  destruct posts1 as [l1|], posts2 as [l2|]; cbn [arePostsEqual];
    try (split; [discriminate | by intros (? & ? & ? & ? & ?)]).
  destruct (Nat.eqb_spec (length l1) (length l2)) as [Hlen|Hlen]; cbn [negb].
  - rewrite same_titles_and_dates_keys by done. split.
    + intros H. by exists l1, l2.
    + by intros (? & ? & [= <-] & [= <-] & H).
  - split; [discriminate|].
    intros (? & ? & [= <-] & [= <-] & H). destruct Hlen.
    by rewrite <- (length_map post_key l1), H, length_map.
Qed.

End FeedText.

(* ===================================================================== *)
(** * Further properties: the blog cache *)
(* ===================================================================== *)

Section BlogCache.

Import BlogManager.
Local Open Scope Z_scope.

Variable json_stringify : list PostSummary -> Z -> string.
Variable json_parse : string -> option Envelope.

Lemma getCachedData_run now w :
  getCachedData json_parse now w =
    match localStorage w !! cacheKey with
    | None => (Returned None, w)
    | Some text =>
        if String.eqb text "" then (Returned None, w)
        else
          match json_parse text with
          | None =>
              (Returned None,
               log (StorageRemove cacheKey)
                 (with_localStorage (delete cacheKey)
                    (log (ConsoleError "캐시 데이터 로드 실패:" (Error "SyntaxError")) w)))
          | Some envelope =>
              if age_exceeds now (env_timestamp envelope) cacheExpiry
              then (Returned None,
                    log (StorageRemove cacheKey) (with_localStorage (delete cacheKey) w))
              else (Returned (Some (env_data envelope)), w)
          end
    end.
Proof.
  unfold getCachedData, try_catch, bind, getItem, gets. cbn [fst snd].
  destruct (localStorage w !! cacheKey) as [text|]; [|reflexivity].
  destruct (String.eqb text ""); [reflexivity|].
  destruct (json_parse text) as [envelope|]; [|reflexivity].
  destruct (age_exceeds now (env_timestamp envelope) cacheExpiry); reflexivity.
Qed.

Lemma isCacheRecent_run minutes now w :
  isCacheRecent json_parse minutes now w =
    (Returned
       match localStorage w !! cacheKey with
       | None => false
       | Some text =>
           if String.eqb text "" then false
           else
             match json_parse text with
             | None => false
             | Some envelope =>
                 age_below now (env_timestamp envelope) (minutes * 60 * 1000)
             end
       end, w).
Proof.
  unfold isCacheRecent, try_catch, bind, getItem, gets. cbn [fst snd].
  destruct (localStorage w !! cacheKey) as [text|]; [|reflexivity].
  destruct (String.eqb text ""); [reflexivity|].
  destruct (json_parse text) as [envelope|]; reflexivity.
Qed.

Lemma setCachedData_localStorage posts t0 w :
  localStorage (exec (setCachedData json_stringify posts t0) w)
  = <[cacheKey := json_stringify posts t0]> (localStorage w).
Proof. reflexivity. Qed.

Lemma eqb_nonempty (text : string) : text <> "" -> String.eqb text "" = false.
Proof. intros H. by apply String.eqb_neq. Qed.

(** X25. A stored list of posts is served back for half an hour: if the
    JSON text written by [setCachedData] at time [t0] parses back to the
    same posts and time stamp, then [getCachedData] called no more than
    1,800,000 ms later returns exactly those posts and changes nothing. *)
Theorem cache_round_trip_within_expiry posts t0 now w :
  json_stringify posts t0 <> "" ->
  json_parse (json_stringify posts t0)
    = Some (mkEnvelope (CachedPosts posts) (Int t0)) ->
  now - t0 <= 1800000 ->
  let stored := exec (setCachedData json_stringify posts t0) w in
  getCachedData json_parse now stored = (Returned (Some (CachedPosts posts)), stored).
Proof.
  intros Hnonempty Hcodec Hfresh stored.
  rewrite getCachedData_run. subst stored.
  rewrite setCachedData_localStorage, lookup_insert_eq.
  rewrite eqb_nonempty by done. rewrite Hcodec.
  cbn [env_timestamp env_data age_exceeds]. unfold cacheExpiry.
  destruct (Z.ltb_spec (30 * 60 * 1000) (now - t0)); [lia | reflexivity].
Qed.

(** X26. A stored list of posts expires after half an hour: if the JSON
    text written by [setCachedData] at time [t0] parses back to the same
    posts and time stamp, then [getCachedData] called more than
    1,800,000 ms later answers [null], removes the entry from localStorage
    and does nothing else. *)
Theorem cache_expires_after_half_an_hour posts t0 now w :
  json_stringify posts t0 <> "" ->
  json_parse (json_stringify posts t0)
    = Some (mkEnvelope (CachedPosts posts) (Int t0)) ->
  1800000 < now - t0 ->
  let stored := exec (setCachedData json_stringify posts t0) w in
  outcome (getCachedData json_parse now) stored = Returned None
  /\ localStorage (exec (getCachedData json_parse now) stored) !! cacheKey = None
  /\ new_effects stored (exec (getCachedData json_parse now) stored)
     = [StorageRemove cacheKey].
Proof.
  intros Hnonempty Hcodec Hold stored.
  assert (Hrun : getCachedData json_parse now stored
                 = (Returned None,
                    log (StorageRemove cacheKey)
                      (with_localStorage (delete cacheKey) stored))).
  { rewrite getCachedData_run. subst stored.
    rewrite setCachedData_localStorage, lookup_insert_eq.
    rewrite eqb_nonempty by done. rewrite Hcodec.
    cbn [env_timestamp env_data age_exceeds]. unfold cacheExpiry.
    destruct (Z.ltb_spec (30 * 60 * 1000) (now - t0)); [reflexivity | lia]. }
  unfold outcome, exec. rewrite Hrun. cbn [fst snd].
  split; [reflexivity|]. split.
  - unfold log, logs, with_localStorage. cbn [localStorage].
    apply lookup_delete_eq.
  - unfold new_effects, log, logs, with_localStorage. cbn [trace].
    apply drop_app_length.
Qed.

(** X27. [getCachedData] never throws, and it either hits and leaves
    everything as it was, or misses and leaves no usable entry behind:
    after a [null] answer the cache key is absent from localStorage or
    holds the empty string. *)
Theorem getCachedData_hits_or_clears now w :
  (exists data, getCachedData json_parse now w = (Returned (Some data), w))
  \/ (outcome (getCachedData json_parse now) w = Returned None
      /\ (localStorage (exec (getCachedData json_parse now) w) !! cacheKey = None
          \/ localStorage (exec (getCachedData json_parse now) w) !! cacheKey = Some "")).
Proof.
  unfold outcome, exec. rewrite getCachedData_run.
  destruct (localStorage w !! cacheKey) as [text|] eqn:Hentry.
  - destruct (String.eqb_spec text "") as [->|Htext].
    + right. cbn [fst snd]. split; [reflexivity | by right].
    + destruct (json_parse text) as [envelope|].
      * destruct (age_exceeds now (env_timestamp envelope) cacheExpiry).
        -- right. cbn [fst snd]. split; [reflexivity | left].
           cbn. apply lookup_delete_eq.
        -- left. by eexists.
      * right. cbn [fst snd]. split; [reflexivity | left].
        cbn. apply lookup_delete_eq.
  - right. cbn [fst snd]. split; [reflexivity | by left].
Qed.

(** X28. What [isCacheRecent] calls recent, [getCachedData] still serves:
    if [isCacheRecent(minutes)] answers true for some [minutes] of at most
    30, then [getCachedData] at the same instant returns the stored data
    and removes nothing. *)
Theorem recent_cache_is_served minutes now w :
  minutes <= 30 ->
  outcome (isCacheRecent json_parse minutes now) w = Returned true ->
  exists data, getCachedData json_parse now w = (Returned (Some data), w).
Proof.
  intros Hminutes. unfold outcome.
  rewrite isCacheRecent_run, getCachedData_run. cbn [fst].
  destruct (localStorage w !! cacheKey) as [text|]; [|discriminate].
  destruct (String.eqb text ""); [discriminate|].
  destruct (json_parse text) as [[data [|t]]|]; try discriminate.
  cbn [env_timestamp env_data age_below age_exceeds]. unfold cacheExpiry.
  intros [= Hrecent]. apply Z.ltb_lt in Hrecent.
  destruct (Z.ltb_spec (30 * 60 * 1000) (now - t)); [lia|].
  by eexists.
Qed.

End BlogCache.

(* ===================================================================== *)
(** * Further properties: detecting an updated feed *)
(* ===================================================================== *)

Section FeedUpdates.

Import BlogManager.
Local Open Scope list_scope.

Variable date_parse : ustring -> option Z.
Variable local_year local_month local_day : Z -> Z.

Abbreviation parse_item := (BlogManager.parseItem date_parse local_year local_month local_day).
Abbreviation parse_feed := (BlogManager.parseRssXml date_parse local_year local_month local_day).

Lemma parseRssXml_take items : parse_feed items = map parse_item (take 6 items).
Proof.
  unfold BlogManager.parseRssXml, maxPosts.
  destruct (Nat.le_ge_cases (length items) 6) as [Hle|Hge].
  - rewrite Nat.min_l by done. by rewrite !take_ge by lia.
  - by rewrite Nat.min_r by done.
Qed.

Lemma post_key_parseItem items1 items2 :
  map item_key items1 = map item_key items2 ->
  map post_key (map parse_item items1) = map post_key (map parse_item items2).
Proof.
  revert items2. induction items1 as [|i1 rest1 IH]; intros [|i2 rest2] Hkeys;
    try discriminate Hkeys; [reflexivity|].
  cbn [map] in *. injection Hkeys as Htitle Hdate Hrest.
  rewrite (IH rest2 Hrest). f_equal.
  unfold post_key, BlogManager.parseItem. cbn [title date].
  by rewrite Htitle, Hdate.
Qed.

(** X29. A feed whose first six items keep their titles and publication
    dates is not seen as an update: [arePostsEqual] judges the posts parsed
    from it equal to those parsed from the earlier feed, whatever changed in
    descriptions, links or categories, or beyond the sixth item. *)
Theorem unchanged_titles_and_dates_are_no_update items1 items2 :
  map item_key (take 6 items1) = map item_key (take 6 items2) ->
  arePostsEqual (Some (parse_feed items1)) (Some (parse_feed items2)) = true.
Proof.
  intros Hkeys. rewrite !parseRssXml_take. cbn [arePostsEqual].
  assert (Hlen : length (take 6 items1) = length (take 6 items2)).
  { by rewrite <- (length_map item_key (take 6 items1)), Hkeys, length_map. }
  rewrite !length_map, Hlen, Nat.eqb_refl. cbn [negb].
  apply same_titles_and_dates_keys; [by rewrite !length_map|].
  by apply post_key_parseItem.
Qed.

End FeedUpdates.

Lemma cache_round_trip_within_expiry_witness :
  BlogManager.getCachedData empty_cache_parse 1801000 empty_cache_stored
  = (Returned (Some (BlogManager.CachedPosts [])), empty_cache_stored).
Proof.
  apply (cache_round_trip_within_expiry empty_cache_stringify empty_cache_parse
           [] 1000 1801000 (StateManager.fresh ∅)).
  - discriminate.
  - reflexivity.
  - lia.
Defined.

Lemma cache_expires_after_half_an_hour_witness :
  outcome (BlogManager.getCachedData empty_cache_parse 1801001) empty_cache_stored
  = Returned None
  /\ localStorage (exec (BlogManager.getCachedData empty_cache_parse 1801001)
                     empty_cache_stored) !! BlogManager.cacheKey = None
  /\ new_effects empty_cache_stored
       (exec (BlogManager.getCachedData empty_cache_parse 1801001) empty_cache_stored)
     = [StorageRemove BlogManager.cacheKey].
Proof.
  apply (cache_expires_after_half_an_hour empty_cache_stringify empty_cache_parse
           [] 1000 1801001 (StateManager.fresh ∅)).
  - discriminate.
  - reflexivity.
  - lia.
Defined.

Lemma recent_cache_is_served_witness :
  exists data,
    BlogManager.getCachedData empty_cache_parse 61000 empty_cache_stored
    = (Returned (Some data), empty_cache_stored).
Proof.
  apply (recent_cache_is_served empty_cache_parse 2 61000 empty_cache_stored).
  - lia.
  - vm_compute. reflexivity.
Defined.

Lemma unchanged_titles_and_dates_are_no_update_witness :
  BlogManager.arePostsEqual
    (Some (EpochHost.parseRssXml [EpochHost.undated]))
    (Some (EpochHost.parseRssXml
             [BlogManager.mkItem (Some (BlogManager.lit "Post")) None
                (Some (BlogManager.lit "rewritten")) None [BlogManager.lit "dev"]]))
  = true.
Proof.
  apply (unchanged_titles_and_dates_are_no_update
           EpochHost.parse EpochHost.year EpochHost.month EpochHost.day).
  reflexivity.
Defined.
